(** * claudia-statusline: context estimation, compaction detection,
    transcript handling and the stats ledger.

    Shallow embedding of [src/src/utils.rs], [src/src/config.rs] and
    [src/src/common.rs].  Conventions:
    - a Rust [char] is its Unicode scalar value (a [Z]), a Rust [&str]
      fed to [chars()] is a list of such values;
    - [usize]/[u32] counts are [N]; [f64] values are modelled exactly
      (rationals [Q]) together with the IEEE special values the code can
      reach ([+inf], [NaN]); every concrete value the claims mention is
      exactly representable in binary64;
    - external collaborators that are not under [src/] (serde parsing,
      the hook-state reader, the database, chrono, the filesystem) are
      parameters of the functions that call them. *)

From Stdlib Require Import Ascii QArith Qabs Qcanon Qminmax.
From stdpp Require Import base gmap sets list strings pretty.

Open Scope N_scope.

(* ------------------------------------------------------------------ *)
(** ** [utils::sanitize_for_terminal] *)
Module Sanitize.

  (** A string as the sequence of its [chars()]. *)
Definition text := list Z.

Definition ESC : Z := 27%Z.
Definition LBRACKET : Z := 91%Z.
Definition LETTER_m : Z := 109%Z.

  (** Character class [[0-9;]] of the ANSI regex. *)
Definition is_csi_param (c : Z) : bool :=
    ((48 <=? c)%Z && (c <=? 57)%Z) || (c =? 59)%Z.

  (** After [ESC '[']: [[0-9;]*m].  The star is greedy, and since ['m']
      is not in the class no backtracking can produce another match:
      the match exists iff the maximal run of parameters is followed by
      ['m'].  Returns the text after the ['m']. *)
Fixpoint csi_tail (s : text) : option text :=
    match s with
    | [] => None
    | c :: r =>
        if is_csi_param c then csi_tail r
        else if (c =? LETTER_m)%Z then Some r else None
    end.

  (** [Regex::new(r"\x1b\[[0-9;]*m").replace_all(input, "")]: leftmost
      non-overlapping matches, scanning resumes after each match.  Every
      step consumes at least one character, so [length s] steps are
      enough; [fuel] is that bound. *)
Fixpoint strip_ansi_fuel (fuel : nat) (s : text) : text :=
    match fuel with
    | O => s
    | S f =>
        match s with
        | [] => []
        | c :: r =>
            if (c =? ESC)%Z then
              match r with
              | b :: r' =>
                  if (b =? LBRACKET)%Z then
                    match csi_tail r' with
                    | Some rest => strip_ansi_fuel f rest
                    | None => c :: strip_ansi_fuel f r
                    end
                  else c :: strip_ansi_fuel f r
              | [] => c :: strip_ansi_fuel f r
              end
            else c :: strip_ansi_fuel f r
        end
    end.

Definition strip_ansi (s : text) : text := strip_ansi_fuel (length s) s.

  (** The [filter] closure of [sanitize_for_terminal]. *)
Definition keep_char (c : Z) : bool :=
    ((c =? 9)%Z || (c =? 10)%Z || (c =? 13)%Z)
    || ((32 <=? c)%Z && negb (c =? 127)%Z
        && negb ((128 <=? c)%Z && (c <=? 159)%Z)).

Definition sanitize_for_terminal (input : text) : text :=
    filter (fun c => keep_char c = true) (strip_ansi input).

End Sanitize.

(* ------------------------------------------------------------------ *)
(** ** [utils::format_token_count] *)
Module TokenFormat.











End TokenFormat.

(* ------------------------------------------------------------------ *)
(** ** String helpers used by the code below ([str::split],
    [str::parse::<u32>], [eq_ignore_ascii_case], [contains]). *)
Module Str.

  (** [s.split(sep)]: always at least one piece. *)
Fixpoint split_on (sep : Ascii.ascii) (s : string) : list string :=
    match s with
    | EmptyString => [""]
    | String c r =>
        match split_on sep r with
        | [] => [String c ""]
        | w :: ws =>
            if Ascii.eqb c sep then "" :: w :: ws else String c w :: ws
        end
    end.

Definition digit_value (c : Ascii.ascii) : option N :=
    let n := Ascii.N_of_ascii c in
    if (48 <=? n) && (n <=? 57) then Some (n - 48) else None.

Fixpoint parse_digits (acc : N) (s : string) : option N :=
    match s with
    | EmptyString => Some acc
    | String c r =>
        match digit_value c with
        | Some d => parse_digits (acc * 10 + d) r
        | None => None
        end
    end.

  (** [s.parse::<u32>()]: an optional leading ['+'], then at least one
      decimal digit, value at most [u32::MAX]. *)
Definition parse_u32 (s : string) : option N :=
    let digits := match s with
                  | String "+"%char r => r
                  | _ => s
                  end in
    match digits with
    | EmptyString => None
    | _ =>
        match parse_digits 0 digits with
        | Some v => if v <=? 4294967295 then Some v else None
        | None => None
        end
    end.

Definition ascii_lower (c : Ascii.ascii) : Ascii.ascii :=
    let n := Ascii.N_of_ascii c in
    if (65 <=? n) && (n <=? 90) then Ascii.ascii_of_N (n + 32) else c.

Fixpoint eq_ignore_ascii_case (a b : string) : bool :=
    match a, b with
    | EmptyString, EmptyString => true
    | String x a', String y b' =>
        Ascii.eqb (ascii_lower x) (ascii_lower y) && eq_ignore_ascii_case a' b'
    | _, _ => false
    end.

Fixpoint contains_char (c : Ascii.ascii) (s : string) : bool :=
    match s with
    | EmptyString => false
    | String x r => Ascii.eqb x c || contains_char c r
    end.

End Str.

(* ------------------------------------------------------------------ *)
(** ** The [f64] values the context computation can produce. *)
Module F64.

  (** Strict comparison [a < b] on rationals, as a boolean. *)
Definition qlt (a b : Q) : bool := negb (Qle_bool b a).

  (** A finite value, [+inf] ([x / 0.0] with [x > 0]) or [NaN]
      ([0.0 / 0.0]). *)
Inductive f64 := Fin (q : Q) | PosInf | NaN.

  (** [a as f64 / b as f64] for non-negative integers. *)
Definition div_N (a b : N) : f64 :=
    if decide (b = 0) then (if decide (a = 0) then NaN else PosInf)
    else Fin (inject_Z (Z.of_N a) / inject_Z (Z.of_N b))%Q.

Definition mul (x : f64) (k : Q) : f64 :=
    match x with
    | Fin q => Fin (q * k)%Q
    | PosInf => PosInf
    | NaN => NaN
    end.

  (** [x.min(y)] for finite [y]: [f64::min] ignores a [NaN] operand. *)
Definition min (x : f64) (y : Q) : f64 :=
    match x with
    | Fin q => Fin (Qmin q y)
    | PosInf => Fin y
    | NaN => Fin y
    end.

  (** [x >= y] for finite [y]: false on [NaN]. *)
Definition ge (x : f64) (y : Q) : bool :=
    match x with
    | Fin q => Qle_bool y q
    | PosInf => true
    | NaN => false
    end.

End F64.

(* ------------------------------------------------------------------ *)
(** ** [config::ContextConfig] *)
Module Config.

Record ContextConfig := {
    window_size : N;
    model_windows : gmap string N;
    adaptive_learning : bool;
    learning_confidence_threshold : Q;
    buffer_size : N;
    auto_compact_threshold : Q;
    percentage_mode : string
  }.

  (** [impl Default for ContextConfig]. *)
Definition default_context : ContextConfig := {|
    window_size := 200000;
    model_windows := ∅;
    adaptive_learning := false;
    learning_confidence_threshold := 7 # 10;
    buffer_size := 40000;
    auto_compact_threshold := 75;
    percentage_mode := "full"
  |}.

  (** [ContextConfig::get_effective_threshold]. *)
Definition get_effective_threshold (c : ContextConfig) : Q :=
    let t := auto_compact_threshold c in
    let is_custom :=
      F64.qlt (1 # 10) (Qabs (t - 75)%Q) && F64.qlt (1 # 10) (Qabs (t - 80)%Q) in
    if is_custom then t
    else if String.eqb (percentage_mode c) "working" then 94 else 75.

End Config.

(* ------------------------------------------------------------------ *)
(** ** [utils::get_context_window_for_model] *)
Module ContextWindow.
Import Config.

  (** [models::ModelType]. *)
Inductive ModelType :=
  | Model (family version : string)
  | Unknown.

Section Resolve.
    (** [ModelType::from_name] (display-name parser, in [models.rs]). *)
Variable from_name : string -> ModelType.
    (** [get_learned_context_window model config]: the learner's answer
        for [model] at the given confidence threshold; [None] is its
        [Err], [Some None] its [Ok(None)]. *)
Variable get_learned_context_window : string -> Q -> option (option N).

    (** [version.split('.').next().and_then(|s| s.parse::<u32>().ok()).unwrap_or(0)] *)
Definition version_number (version : string) : N :=
      match Str.split_on "." version with
      | p :: _ => default 0 (Str.parse_u32 p)
      | [] => 0
      end.

    (** [version.split('.').nth(1).and_then(..).unwrap_or(0)] *)
Definition minor_version (version : string) : N :=
      match Str.split_on "." version with
      | _ :: p :: _ => default 0 (Str.parse_u32 p)
      | _ => 0
      end.

Definition modern_version (version : string) : bool :=
      (4 <=? version_number version)
      || ((version_number version =? 3) && (5 <=? minor_version version)).

Definition get_context_window_for_model
        (model_name : option string) (config : ContextConfig) : N :=
      match model_name with
      | Some model =>
          match model_windows config !! model with
          | Some custom_size => custom_size
          | None =>
              match (if adaptive_learning config
                     then get_learned_context_window model
                            (learning_confidence_threshold config)
                     else None) with
              | Some (Some window) => window
              | _ =>
                  match from_name model with
                  | Model family version =>
                      if String.eqb family "Sonnet" then
                        (if modern_version version then 200000 else 160000)
                      else if String.eqb family "Opus" then
                        (if modern_version version then 200000 else 160000)
                      else if String.eqb family "Haiku" then window_size config
                      else window_size config
                  | Unknown => window_size config
                  end
              end
          end
      | None => window_size config
      end.
End Resolve.

End ContextWindow.

(* ------------------------------------------------------------------ *)
(** ** Filesystem, as seen through [std::fs] by the transcript code. *)
Module Fs.

Record FileSystem := {
    (** [fs::canonicalize]: [None] is its [Err]. *)
    canonicalize : string -> option string;
    (** [Path::is_file] on a canonical path. *)
    is_file : string -> bool;
    (** [File::open] succeeds. *)
    open_ok : string -> bool;
    (** [file.metadata().len()], [None] on error. *)
    file_size : string -> option N;
    (** The lines [BufReader::lines().map_while(|l| l.ok())] yields
        after seeking to the given byte offset. *)
    lines_from : string -> N -> list string;
    (** Whole seconds since the last modification
        ([SystemTime::now().duration_since(modified)]), [None] when the
        metadata, the mtime or the subtraction fails. *)
    modified_elapsed : string -> option N
  }.

  (** Paths whose content an operation read (one entry per read). *)
Definition traced (A : Type) : Type := (A * list string)%type.

End Fs.

(* ------------------------------------------------------------------ *)
(** ** [models::TranscriptEntry], [models::TokenBreakdown] *)
Module Models.

Module Usage.
Record Usage := {
      input_tokens : option N;
      output_tokens : option N;
      cache_creation_input_tokens : option N;
      cache_read_input_tokens : option N
    }.
End Usage.

Record Message := {
    role : string;
    usage : option Usage.Usage
  }.

Record TranscriptEntry := {
    message : Message;
    timestamp : string
  }.

Record TokenBreakdown := {
    input_tokens : N;
    output_tokens : N;
    cache_read_tokens : N;
    cache_creation_tokens : N
  }.

Definition default_breakdown : TokenBreakdown :=
    {| input_tokens := 0; output_tokens := 0;
       cache_read_tokens := 0; cache_creation_tokens := 0 |}.

  (** [u32] addition as a release build performs it (wrap-around). *)
Definition u32_add (a b : N) : N := (a + b) mod 4294967296.

  (** [TokenBreakdown::total] as computed in the extraction loop:
      [input + cache_read + cache_creation + output] on [u32]. *)
Definition loop_total (b : TokenBreakdown) : N :=
    u32_add (u32_add (u32_add (input_tokens b) (cache_read_tokens b))
                     (cache_creation_tokens b))
            (output_tokens b).

End Models.

(* ------------------------------------------------------------------ *)
(** ** Transcript validation and reading ([common::validate_path_security],
    [utils::validate_transcript_file], [utils::get_token_breakdown_from_transcript],
    [utils::get_token_count_from_transcript], [utils::parse_duration]). *)
Module Transcript.
Import Fs Models.

Inductive StatuslineError := InvalidPath (msg : string).

Inductive result (A : Type) :=
  | Ok (a : A)
  | Err (e : StatuslineError).
Arguments Ok {A} a.
Arguments Err {A} e.

Definition ok {A} (r : result A) : option A :=
    match r with Ok a => Some a | Err _ => None end.

Definition NUL : Ascii.ascii := Ascii.ascii_of_nat 0.

Definition validate_path_security (fs : FileSystem) (path : string)
      : result string :=
    if Str.contains_char NUL path then Err (InvalidPath "Path contains null bytes")
    else match canonicalize fs path with
         | Some p => Ok p
         | None => Err (InvalidPath ("Cannot canonicalize path: " +:+ path))
         end.

  (** [Path::file_name] of a canonical path: the last component, none
      for the root or a trailing [".."]. *)
Definition file_name (p : string) : option string :=
    match last (Str.split_on "/" p) with
    | Some n => if decide (n = "") then None
                else if decide (n = "..") then None else Some n
    | None => None
    end.

  (** [Path::extension]: the text after the last ['.'] of the file name;
      none without a dot, or when the only dot starts the name. *)
Definition extension (p : string) : option string :=
    match file_name p with
    | Some n =>
        match Str.split_on "." n with
        | [_] => None
        | [""; _] => None
        | parts => last parts
        end
    | None => None
    end.

Definition validate_transcript_file (fs : FileSystem) (path : string)
      : result string :=
    match validate_path_security fs path with
    | Err e => Err e
    | Ok canonical_path =>
        if negb (is_file fs canonical_path) then
          Err (InvalidPath ("Path is not a file: " +:+ path))
        else match extension canonical_path with
             | Some ext =>
                 if negb (Str.eq_ignore_ascii_case ext "jsonl") then
                   Err (InvalidPath "Only .jsonl files are allowed for transcripts")
                 else Ok canonical_path
             | None => Err (InvalidPath "File must have .jsonl extension")
             end
    end.

Section Reading.
    (** [serde_json::from_str::<TranscriptEntry>]. *)
Variable parse_entry : string -> option TranscriptEntry.
    (** [utils::parse_iso8601_to_unix] (chrono). *)
Variable parse_iso8601_to_unix : string -> option N.
    (** [config.transcript.buffer_lines]. *)
Variable buffer_lines : N.

    (** One step of the [VecDeque] circular buffer. *)
Definition push_line (buf : list string) (line : string) : list string :=
      (if decide (N.of_nat (length buf) = buffer_lines) then tail buf else buf)
        ++ [line].

    (** The lines the extraction looks at, for a file of [file_size]
        bytes.  [buffer_size * 2048] is a [usize] product: it wraps
        modulo [2^64] in a release build (a debug build panics instead).
        A failed allocation of [VecDeque::with_capacity(buffer_size)] is
        not represented. *)
Definition trailing_window (fs : FileSystem) (p : string) (file_size : N)
        : list string :=
      if file_size <? 1024 * 1024 then
        fold_left push_line (lines_from fs p 0) []
      else
        let read_size := N.max ((buffer_lines * 2048) mod 2 ^ 64) (200 * 1024) in
        let start_pos := file_size - read_size in
        let all_lines := lines_from fs p start_pos in
        let skip_first := if 0 <? start_pos then 1%nat else 0%nat in
        rev (take (N.to_nat buffer_lines) (rev (drop skip_first all_lines))).

    (** The [for line in lines] loop: keeps the first breakdown with the
        strictly highest total, starting from [(default, 0)]. *)
Definition scan_step (acc : TokenBreakdown * N) (line : string)
        : TokenBreakdown * N :=
      let '(best, max_total) := acc in
      match parse_entry line with
      | Some entry =>
          if String.eqb (role (message entry)) "assistant" then
            match usage (message entry) with
            | Some u =>
                let b := {| input_tokens := default 0 (Usage.input_tokens u);
                            output_tokens := default 0 (Usage.output_tokens u);
                            cache_read_tokens :=
                              default 0 (Usage.cache_read_input_tokens u);
                            cache_creation_tokens :=
                              default 0 (Usage.cache_creation_input_tokens u) |} in
                let current_total := loop_total b in
                if max_total <? current_total then (b, current_total)
                else (best, max_total)
            | None => (best, max_total)
            end
          else (best, max_total)
      | None => (best, max_total)
      end.

Definition select_breakdown (lines : list string) : option TokenBreakdown :=
      let '(best, max_total) := fold_left scan_step lines (default_breakdown, 0) in
      if 0 <? max_total then Some best else None.

Definition get_token_breakdown_from_transcript (fs : FileSystem)
        (transcript_path : string) : traced (option TokenBreakdown) :=
      match ok (validate_transcript_file fs transcript_path) with
      | None => (None, [])
      | Some safe_path =>
          if negb (open_ok fs safe_path) then (None, [])
          else match Fs.file_size fs safe_path with
               | None => (None, [])
               | Some sz =>
                   (select_breakdown (trailing_window fs safe_path sz), [safe_path])
               end
      end.

Definition get_token_count_from_transcript (fs : FileSystem)
        (transcript_path : string) : traced (option N) :=
      let '(r, reads) := get_token_breakdown_from_transcript fs transcript_path in
      (option_map loop_total r, reads).

    (** [parse_duration]'s loop state: first line seen, first and last
        timestamps. *)
Definition duration_step (st : option string * option N * option N)
        (line : string) : option string * option N * option N :=
      let '(first_line, first_ts, last_ts) := st in
      let '(first_line', first_ts') :=
        match first_line with
        | None =>
            (Some line,
             match parse_entry line with
             | Some e => parse_iso8601_to_unix (timestamp e)
             | None => first_ts
             end)
        | Some _ => (first_line, first_ts)
        end in
      let last_ts' :=
        match parse_entry line with
        | Some e => parse_iso8601_to_unix (timestamp e)
        | None => last_ts
        end in
      (first_line', first_ts', last_ts').

Definition parse_duration (fs : FileSystem) (transcript_path : string)
        : traced (option N) :=
      match ok (validate_transcript_file fs transcript_path) with
      | None => (None, [])
      | Some safe_path =>
          if negb (open_ok fs safe_path) then (None, [])
          else
            let '(_, first_ts, last_ts) :=
              fold_left duration_step (lines_from fs safe_path 0) (None, None, None) in
            (match first_ts, last_ts with
             | Some first, Some last => if first <? last then Some (last - first) else None
             | _, _ => None
             end, [safe_path])
      end.
End Reading.

End Transcript.

(* ------------------------------------------------------------------ *)
(** ** [utils::detect_compaction_state] *)
Module Compaction.
Import Fs Transcript.

  (** [models::CompactionState]. *)
Inductive CompactionState := Normal | InProgress | RecentlyCompleted.

  (** [state::HookState] as [state::read_state] returns it (only fresh
      hook files are returned; staleness is that module's rule). *)
Record HookState := {
    state : string;
    trigger : string
  }.

Section Detect.
Variable read_state : string -> option HookState.
    (** [SqliteDatabase::new(&db_path)]: [None] is its [Err]; otherwise
        the database's [get_session_max_tokens]. *)
Variable db_session_max_tokens : option (string -> option N).

    (** Phase 1 of the detection: a fresh hook state saying "compacting". *)
Definition hook_compacting (session_id : option string) : bool :=
      match session_id with
      | Some sid =>
          match read_state sid with
          | Some hook_state => String.eqb (state hook_state) "compacting"
          | None => false
          end
      | None => false
      end.

Definition last_known_tokens (session_id : option string) : option N :=
      match session_id with
      | Some sid =>
          match db_session_max_tokens with
          | Some get_session_max_tokens => get_session_max_tokens sid
          | None => None
          end
      | None => None
      end.

Definition recently_modified (fs : FileSystem) (transcript_path : string) : bool :=
      match ok (validate_transcript_file fs transcript_path) with
      | Some safe_path =>
          match modified_elapsed fs safe_path with
          | Some elapsed => elapsed <? 10
          | None => false
          end
      | None => false
      end.

Definition token_drop_ratio (last_tokens current_tokens : N) : Q :=
      if 0 <? last_tokens then
        (inject_Z (Z.of_N (last_tokens - current_tokens))
         / inject_Z (Z.of_N last_tokens))%Q
      else 0%Q.

Definition detect_compaction_state (fs : FileSystem) (transcript_path : string)
        (current_tokens : N) (session_id : option string) : CompactionState :=
      if hook_compacting session_id then InProgress
      else
        let last_known := last_known_tokens session_id in
        let recent := recently_modified fs transcript_path in
        match last_known with
        | Some last_tokens =>
            if F64.qlt (1 # 2) (token_drop_ratio last_tokens current_tokens) then
              (if recent then InProgress else RecentlyCompleted)
            else if recent && (current_tokens * 2 <? last_tokens) then InProgress
            else Normal
        | None => Normal
        end.
End Detect.

End Compaction.

(* ------------------------------------------------------------------ *)
(** ** [utils::calculate_context_usage] *)
Module Usage.
Import Fs Config Transcript Compaction ContextWindow F64.

  (** [models::ContextUsage]. *)
Record ContextUsage := {
    percentage : f64;
    approaching_limit : bool;
    tokens_remaining : N;
    compaction_state : CompactionState
  }.

  (** [(full_window, working_window)] from the resolved window. *)
Definition windows (config : ContextConfig) (base_window : N) : N * N :=
    if adaptive_learning config then (base_window + buffer_size config, base_window)
    else (base_window, base_window - buffer_size config).

  (** The local [percentage] of the code, before clamping. *)
Definition raw_percentage (config : ContextConfig) (total_tokens : N)
      (full_window working_window : N) : f64 :=
    if String.eqb (percentage_mode config) "working"
    then mul (div_N total_tokens working_window) 100
    else mul (div_N total_tokens full_window) 100.

  (** Everything after the token count, the compaction state and the
      base window are known. *)
Definition usage_from (config : ContextConfig) (total_tokens base_window : N)
      (cs : CompactionState) : ContextUsage :=
    let '(full_window, working_window) := windows config base_window in
    let pct := raw_percentage config total_tokens full_window working_window in
    let effective_threshold := get_effective_threshold config in
    {| percentage := min pct 100;
       approaching_limit := ge pct effective_threshold;
       tokens_remaining := working_window - total_tokens;
       compaction_state := cs |}.

Section Calculate.
Variable from_name : string -> ModelType.
Variable get_learned_context_window : string -> Q -> option (option N).
Variable read_state : string -> option HookState.
Variable db_session_max_tokens : option (string -> option N).
Variable parse_entry : string -> option Models.TranscriptEntry.
Variable buffer_lines : N.

Definition calculate_context_usage (fs : FileSystem) (transcript_path : string)
        (model_name session_id : option string) (config : ContextConfig)
        : traced (option ContextUsage) :=
      let '(count, reads) :=
        get_token_count_from_transcript parse_entry buffer_lines fs transcript_path in
      match count with
      | None => (None, reads)
      | Some total_tokens =>
          let cs := detect_compaction_state read_state db_session_max_tokens
                      fs transcript_path total_tokens session_id in
          let base_window :=
            get_context_window_for_model from_name get_learned_context_window
              model_name config in
          (Some (usage_from config total_tokens base_window cs), reads)
      end.
End Calculate.

End Usage.

(* ------------------------------------------------------------------ *)
(** ** The stats ledger ([stats.rs] / [database.rs] are not in [src/]). *)
Module Stats.

  (** A session row: latest absolute values reported for the session. *)
Record Session := {
    start_time : N;
    last_updated : N;
    cost : Qc;
    lines_added : Z;
    lines_removed : Z;
    max_tokens_seen : N
  }.

  (** A Daily or Monthly bucket. *)
Record Bucket := {
    total_cost : Qc;
    total_lines_added : Z;
    total_lines_removed : Z;
    bucket_sessions : gset string
  }.

Record AllTimeStats := {
    all_time_cost : Qc;
    session_count : N
  }.

Record Store := {
    session_rows : gmap string Session;
    daily : gmap string Bucket;
    monthly : gmap string Bucket;
    all_time : AllTimeStats
  }.

  (** One [record] call: the caller's absolute values, the invocation
      time and its calendar date / month keys, the current token total. *)
Record Invocation := {
    session_id : string;
    inv_cost : Qc;
    inv_lines_added : Z;
    inv_lines_removed : Z;
    inv_time : N;
    inv_date : string;
    inv_month : string;
    inv_tokens : N
  }.

Definition empty_bucket : Bucket :=
    {| total_cost := 0%Qc; total_lines_added := 0%Z; total_lines_removed := 0%Z;
       bucket_sessions := ∅ |}.

Definition empty_store : Store :=
    {| session_rows := ∅; daily := ∅; monthly := ∅;
       all_time := {| all_time_cost := 0%Qc; session_count := 0 |} |}.

  (** Previous absolutes of a session, zero if unseen. *)
Definition prev_cost (st : Store) (sid : string) : Qc :=
    match session_rows st !! sid with Some s => cost s | None => 0%Qc end.
Definition prev_added (st : Store) (sid : string) : Z :=
    match session_rows st !! sid with Some s => lines_added s | None => 0%Z end.
Definition prev_removed (st : Store) (sid : string) : Z :=
    match session_rows st !! sid with Some s => lines_removed s | None => 0%Z end.

  (** Apply the deltas to a bucket and add the session to its set. *)
Definition apply_delta (sid : string) (dc : Qc) (da dr : Z) (b : option Bucket)
      : Bucket :=
    let b0 := default empty_bucket b in
    {| total_cost := (total_cost b0 + dc)%Qc;
       total_lines_added := (total_lines_added b0 + da)%Z;
       total_lines_removed := (total_lines_removed b0 + dr)%Z;
       bucket_sessions := {[sid]} ∪ bucket_sessions b0 |}.

  (** Modelled from the spec: [record(session_id, cost, lines_added,
      lines_removed, timestamp)] of the Stats Store (section 4.5): look up
      the previous absolutes (zero if unseen), compute the deltas,
      replace the session's absolutes and [last_updated], apply the
      deltas to the day and month buckets of the invocation and add the
      session to their sets, count a new session once in All-time and
      add the cost delta to its total, and keep the token high-water
      mark. *)
Definition record (st : Store) (inv : Invocation) : Store :=
    let sid := session_id inv in
    let prev := session_rows st !! sid in
    let dc := (inv_cost inv - prev_cost st sid)%Qc in
    let da := (inv_lines_added inv - prev_added st sid)%Z in
    let dr := (inv_lines_removed inv - prev_removed st sid)%Z in
    let row := {| start_time := match prev with
                                | Some s => start_time s
                                | None => inv_time inv
                                end;
                  last_updated := inv_time inv;
                  cost := inv_cost inv;
                  lines_added := inv_lines_added inv;
                  lines_removed := inv_lines_removed inv;
                  max_tokens_seen := match prev with
                                     | Some s => N.max (max_tokens_seen s) (inv_tokens inv)
                                     | None => inv_tokens inv
                                     end |} in
    {| session_rows := <[sid := row]> (session_rows st);
       daily := <[inv_date inv := apply_delta sid dc da dr (daily st !! inv_date inv)]>
                  (daily st);
       monthly := <[inv_month inv := apply_delta sid dc da dr (monthly st !! inv_month inv)]>
                    (monthly st);
       all_time := {| all_time_cost := (all_time_cost (all_time st) + dc)%Qc;
                      session_count := match prev with
                                       | Some _ => session_count (all_time st)
                                       | None => session_count (all_time st) + 1
                                       end |} |}.

Definition run_from (st : Store) (h : list Invocation) : Store :=
    fold_left record h st.

Definition run (h : list Invocation) : Store := run_from empty_store h.

  (** Sum of the current absolute costs of all known sessions. *)
Definition sum_costs (m : gmap string Session) : Qc :=
    map_fold (fun _ s acc => (cost s + acc)%Qc) 0%Qc m.

Definition day_cost (st : Store) (d : string) : Qc :=
    match daily st !! d with Some b => total_cost b | None => 0%Qc end.
Definition month_cost (st : Store) (m : string) : Qc :=
    match monthly st !! m with Some b => total_cost b | None => 0%Qc end.

End Stats.

(* ------------------------------------------------------------------ *)
(** ** Paths and directories ([utils::shorten_path],
    [common::get_data_dir], [common::get_config_dir],
    [Config::find_config_file]).  Strings are the UTF-8 bytes of a Rust
    [&str]; byte-wise matching of a valid UTF-8 needle only matches at
    character boundaries, as [str]'s searcher does. *)
Module Paths.

  (** [s] without its first [n] bytes. *)
Fixpoint str_drop (n : nat) (s : string) : string :=
    match n, s with
    | O, _ => s
    | S n', String _ r => str_drop n' r
    | S _, EmptyString => EmptyString
    end.

  (** [s.replacen(pat, to, 1)]: the leftmost occurrence of [pat] is
      replaced; an empty [pat] matches at position 0. *)
Fixpoint replacen1 (pat to s : string) : string :=
    if String.prefix pat s then to +:+ str_drop (String.length pat) s
    else match s with
         | EmptyString => EmptyString
         | String c r => String c (replacen1 pat to r)
         end.

  (** [utils::shorten_path]; [home] is [env::var("HOME")], [None] being
      its [Err]. *)
Definition shorten_path (home : option string) (path : string) : string :=
    if String.eqb path "" then ""
    else match home with
         | Some h =>
             if String.eqb path h then "~"
             else if String.prefix h path then replacen1 h "~" path
             else path
         | None => path
         end.

  (** Last byte of a string. *)
Fixpoint last_byte (s : string) : option Ascii.ascii :=
    match s with
    | EmptyString => None
    | String c EmptyString => Some c
    | String _ r => last_byte r
    end.

  (** [PathBuf::join] on Unix ([PathBuf::push] on a copy): an absolute
      argument replaces the path; otherwise a ['/'] is inserted when the
      path is non-empty and does not already end in one. *)
Definition join (base p : string) : string :=
    match p with
    | String "/"%char _ => p
    | _ =>
        match last_byte base with
        | Some c => if Ascii.eqb c "/"%char then base +:+ p else base +:+ "/" +:+ p
        | None => p
        end
    end.

  (** [common::get_data_dir]: [xdg_data_home] is [env::var("XDG_DATA_HOME")],
      [data_dir] is [dirs::data_dir()], [home] is [env::var("HOME")]. *)
Definition get_data_dir (xdg_data_home data_dir home : option string) : string :=
    match xdg_data_home with
    | Some x => join x "claudia-statusline"
    | None =>
        let base_dir := match data_dir with
                        | Some d => d
                        | None => join (join (default "." home) ".local") "share"
                        end in
        join base_dir "claudia-statusline"
    end.

  (** [common::get_config_dir], with [dirs::config_dir()]. *)
Definition get_config_dir (xdg_config_home config_dir home : option string) : string :=
    match xdg_config_home with
    | Some x => join x "claudia-statusline"
    | None =>
        let base_dir := match config_dir with
                        | Some d => d
                        | None => join (default "." home) ".config"
                        end in
        join base_dir "claudia-statusline"
    end.

  (** [Config::find_config_file]: [env] is [std::env::var], [path_exists] is
      [Path::exists], [config_dir] is [common::get_config_dir()] and
      [home_dir] is [dirs::home_dir()]. *)
Definition find_config_file (env : string -> option string) (path_exists : string -> bool)
      (config_dir : string) (home_dir : option string) : option string :=
    match (match env "STATUSLINE_CONFIG_PATH" with
           | Some path => if path_exists path then Some path else None
           | None => None
           end) with
    | Some p => Some p
    | None =>
        match (match env "STATUSLINE_CONFIG" with
               | Some path => if path_exists path then Some path else None
               | None => None
               end) with
        | Some p => Some p
        | None =>
            let path := join config_dir "config.toml" in
            if path_exists path then Some path
            else match home_dir with
                 | Some h =>
                     let path := join h ".claudia-statusline.toml" in
                     if path_exists path then Some path else None
                 | None => None
                 end
        end
    end.

End Paths.

(* ------------------------------------------------------------------ *)
(** ** Display helpers ([display::format_duration], the bar of
    [display::format_context_bar], [Colors::context_color],
    [Colors::cost_color]). *)
Module Display.

  (** [format!("{}", n)] of an unsigned integer. *)
Definition show_u (n : N) : string := pretty n.

  (** [display::format_duration]. *)
Definition format_duration (seconds : N) : string :=
    if seconds <? 60 then show_u seconds +:+ "s"
    else if seconds <? 3600 then show_u (seconds / 60) +:+ "m"
    else show_u (seconds / 3600) +:+ "h" +:+ show_u ((seconds mod 3600) / 60) +:+ "m".

  (** [s.repeat(n)]. *)
Fixpoint str_repeat (s : string) (n : nat) : string :=
    match n with
    | O => ""
    | S n' => s +:+ str_repeat s n'
    end.

  (** The [bar] of [format_context_bar] (same code in the
      RecentlyCompleted and Normal arms); [filled_raw] is
      [(filled_ratio * bar_width as f64).round() as usize]. *)
Definition progress_bar (filled_raw bar_width : N) : string :=
    let filled := N.min filled_raw bar_width in
    let empty := bar_width - filled in
    str_repeat "=" (N.to_nat filled)
    +:+ (if filled <? bar_width then ">" else "")
    +:+ str_repeat "-" (N.to_nat (empty - (if filled <? bar_width then 1 else 0))).

  (** [percentage > t] for an [f64] percentage and a finite threshold. *)
Definition gt (x : F64.f64) (t : Q) : bool :=
    match x with
    | F64.Fin q => F64.qlt t q
    | F64.PosInf => true
    | F64.NaN => false
    end.

  (** The theme's colour names used by these two functions
      ([theme.colors.*]). *)
Record ThemeColors := {
    context_normal : string;
    context_caution : string;
    context_warning : string;
    context_critical : string;
    cost_low : string;
    cost_medium : string;
    cost_high : string
  }.

  (** [config.display.context_*_threshold] and [config.cost.*_threshold]
      (finite). *)
Record ColorThresholds := {
    context_caution_threshold : Q;
    context_warning_threshold : Q;
    context_critical_threshold : Q;
    low_threshold : Q;
    medium_threshold : Q
  }.

Section Colors.
    (** [Colors::enabled()]: [NO_COLOR] is unset. *)
Variable enabled : bool.
    (** [theme.resolve_color]. *)
Variable resolve_color : string -> string.
Variable colors : ThemeColors.
Variable config : ColorThresholds.

    (** [Colors::context_color]. *)
Definition context_color (percentage : F64.f64) : string :=
      if negb enabled then ""
      else if gt percentage (context_critical_threshold config)
      then resolve_color (context_critical colors)
      else if gt percentage (context_warning_threshold config)
      then resolve_color (context_warning colors)
      else if gt percentage (context_caution_threshold config)
      then resolve_color (context_caution colors)
      else resolve_color (context_normal colors).

    (** [Colors::cost_color] (the cost is a finite [f64]). *)
Definition cost_color (cost : Q) : string :=
      if negb enabled then ""
      else if Qle_bool (medium_threshold config) cost
      then resolve_color (cost_high colors)
      else if Qle_bool (low_threshold config) cost
      then resolve_color (cost_medium colors)
      else resolve_color (cost_low colors).
End Colors.

End Display.

(* ================================================================== *)
(** * Properties *)

(* ------------------------------------------------------------------ *)
(** ** Terminal sanitisation *)
Module SanitizeFacts.
Import Sanitize.

  (** Characters no terminal-manipulating sequence can be built from. *)
Definition safe_char (c : Z) : Prop :=
    c <> 27%Z /\ c <> 127%Z /\ ~ (128 <= c <= 159)%Z
    /\ ((c < 32)%Z -> c = 9%Z \/ c = 10%Z \/ c = 13%Z).

Lemma keep_char_safe c : keep_char c = true -> safe_char c.
Proof.
    unfold keep_char, safe_char.
    destruct (Z.eqb_spec c 9), (Z.eqb_spec c 10), (Z.eqb_spec c 13),
      (Z.leb_spec 32 c), (Z.eqb_spec c 127), (Z.leb_spec 128 c),
      (Z.leb_spec c 159); simpl; intros Hk; try discriminate; lia.
Qed.

Lemma strip_ansi_fuel_id fuel s : ~ In ESC s -> strip_ansi_fuel fuel s = s.
Proof.
    revert s; induction fuel as [|fuel IH]; intros s Hs; [reflexivity|].
    destruct s as [|c r]; [reflexivity|]; simpl.
    assert (Hc : c <> ESC) by (intros ->; apply Hs; left; reflexivity).
    assert (Hr : ~ In ESC r) by (intros Hin; apply Hs; right; exact Hin).
    apply Z.eqb_neq in Hc; rewrite Hc, IH by exact Hr; reflexivity.
Qed.

Lemma sanitize_safe s : Forall safe_char (sanitize_for_terminal s).
Proof.
    apply Forall_forall; intros c Hc.
    unfold sanitize_for_terminal in Hc.
    apply list_elem_of_filter in Hc as [Hk _].
    apply keep_char_safe; exact Hk.
Qed.

  (** C10: sanitising twice is sanitising once, and the output contains
      no ESC, no C0 control other than tab, line feed and carriage
      return, no DEL and no C1 control. *)
Theorem sanitize_for_terminal_idempotent_safe (s : text) :
    sanitize_for_terminal (sanitize_for_terminal s) = sanitize_for_terminal s
    /\ Forall safe_char (sanitize_for_terminal s).
Proof.
    split; [|apply sanitize_safe].
    assert (Hesc : ~ In ESC (sanitize_for_terminal s)).
    { intros Hin. pose proof (sanitize_safe s) as Hs.
      rewrite Forall_forall in Hs. destruct (Hs ESC (proj2 (list_elem_of_In _ _) Hin)) as [Hne _].
      apply Hne; reflexivity. }
    unfold sanitize_for_terminal at 1, strip_ansi.
    rewrite strip_ansi_fuel_id by exact Hesc.
    unfold sanitize_for_terminal.
    apply list_filter_filter_l; intros c Hc; exact Hc.
Qed.

End SanitizeFacts.

(* ------------------------------------------------------------------ *)
(** ** Token count display *)
Module TokenFormatFacts.
Import TokenFormat.










End TokenFormatFacts.

(* ------------------------------------------------------------------ *)
(** ** Context window resolution *)
Module ContextWindowFacts.
Import Config ContextWindow.

Section Priority.
Variable from_name : string -> ModelType.
Variable get_learned_context_window : string -> Q -> option (option N).

Definition no_learned_value (config : ContextConfig) (model : string) : Prop :=
      adaptive_learning config = false
      \/ forall w, get_learned_context_window model
                     (learning_confidence_threshold config) <> Some (Some w).

Lemma resolve_heuristic config model :
      model_windows config !! model = None ->
      no_learned_value config model ->
      get_context_window_for_model from_name get_learned_context_window
        (Some model) config =
        match from_name model with
        | Model family version =>
            if String.eqb family "Sonnet" then
              (if modern_version version then 200000 else 160000)
            else if String.eqb family "Opus" then
              (if modern_version version then 200000 else 160000)
            else if String.eqb family "Haiku" then window_size config
            else window_size config
        | Unknown => window_size config
        end.
Proof.
      intros Hmw Hnl. unfold get_context_window_for_model. rewrite Hmw.
      destruct Hnl as [Hoff | Hnone].
      - rewrite Hoff. reflexivity.
      - destruct (adaptive_learning config); [|reflexivity].
        destruct (get_learned_context_window model
                    (learning_confidence_threshold config)) as [[w|]|] eqn:E;
          try reflexivity.
        exfalso; apply (Hnone w); reflexivity.
Qed.

Lemma modern_version_iff version :
      modern_version version = true <->
      4 <= version_number version
      \/ (version_number version = 3 /\ 5 <= minor_version version).
Proof.
      unfold modern_version.
      destruct (N.leb_spec 4 (version_number version)),
        (N.eqb_spec (version_number version) 3),
        (N.leb_spec 5 (minor_version version)); simpl; split; intros; lia.
Qed.
End Priority.

  (** C4: resolution order.  A per-model override is returned as is,
      whatever the learner says; else a learned value when learning is
      on; else Sonnet/Opus get 200,000 at major version >= 4 or 3.x with
      minor >= 5 and 160,000 otherwise; Haiku, other families and
      unrecognised names get the configured default, which is 200,000
      by default; no model name gives the configured default. *)
Theorem get_context_window_for_model_priority
      (from_name : string -> ModelType)
      (learned : string -> Q -> option (option N)) :
    (forall config model custom_size,
        model_windows config !! model = Some custom_size ->
        get_context_window_for_model from_name learned (Some model) config
          = custom_size)
    /\ (forall config model window,
        model_windows config !! model = None ->
        adaptive_learning config = true ->
        learned model (learning_confidence_threshold config) = Some (Some window) ->
        get_context_window_for_model from_name learned (Some model) config = window)
    /\ (forall config model family version,
        model_windows config !! model = None ->
        no_learned_value learned config model ->
        from_name model = Model family version ->
        (family = "Sonnet" \/ family = "Opus") ->
        get_context_window_for_model from_name learned (Some model) config
          = if decide (4 <= version_number version
                       \/ (version_number version = 3 /\ 5 <= minor_version version))
            then 200000 else 160000)
    /\ (forall config model,
        model_windows config !! model = None ->
        no_learned_value learned config model ->
        (from_name model = Unknown
         \/ exists family version, from_name model = Model family version
                                 /\ family <> "Sonnet" /\ family <> "Opus") ->
        get_context_window_for_model from_name learned (Some model) config
          = window_size config)
    /\ (forall config,
        get_context_window_for_model from_name learned None config = window_size config)
    /\ window_size default_context = 200000.
Proof.
    split; [|split; [|split; [|split; [|split]]]].
    - intros config model c Hc. unfold get_context_window_for_model.
      rewrite Hc. reflexivity.
    - intros config model w Hmw Hon Hl. unfold get_context_window_for_model.
      rewrite Hmw, Hon, Hl. reflexivity.
    - intros config model family version Hmw Hnl Hfn Hfam.
      rewrite (resolve_heuristic from_name learned config model Hmw Hnl), Hfn.
      destruct (decide _) as [Hm | Hm].
      + apply modern_version_iff in Hm. rewrite Hm.
        destruct Hfam as [-> | ->]; reflexivity.
      + assert (Hf : modern_version version = false).
        { destruct (modern_version version) eqn:E; [|reflexivity].
          exfalso; apply Hm, modern_version_iff, E. }
        rewrite Hf. destruct Hfam as [-> | ->]; reflexivity.
    - intros config model Hmw Hnl Hfn.
      rewrite (resolve_heuristic from_name learned config model Hmw Hnl).
      destruct Hfn as [-> | (family & version & -> & Hs & Ho)]; [reflexivity|].
      destruct (String.eqb_spec family "Sonnet"); [contradiction|].
      destruct (String.eqb_spec family "Opus"); [contradiction|].
      destruct (String.eqb family "Haiku"); reflexivity.
    - intros config. reflexivity.
    - reflexivity.
Qed.

Definition sample_config (learning : bool) : ContextConfig :=
    {| window_size := 200000;
       model_windows := {[ "Claude Custom" := 500000 ]};
       adaptive_learning := learning;
       learning_confidence_threshold := 7 # 10;
       buffer_size := 40000;
       auto_compact_threshold := 75;
       percentage_mode := "full" |}.

Definition sample_from_name (name : string) : ModelType :=
    if String.eqb name "Claude 3 Opus" then Model "Opus" "3"
    else if String.eqb name "Claude 3 Haiku" then Model "Haiku" "3"
    else Model "Sonnet" "4.5".

Definition sample_learned (_ : string) (_ : Q) : option (option N) :=
    Some (Some 156000).

Lemma get_context_window_for_model_priority_witness :
    get_context_window_for_model sample_from_name sample_learned
      (Some "Claude Custom") (sample_config true) = 500000
    /\ get_context_window_for_model sample_from_name sample_learned
      (Some "Claude Sonnet 4.5") (sample_config true) = 156000
    /\ get_context_window_for_model sample_from_name sample_learned
      (Some "Claude 3 Opus") (sample_config false) = 160000
    /\ get_context_window_for_model sample_from_name sample_learned
      (Some "Claude 3 Haiku") (sample_config false) = 200000.
Proof.
    destruct (get_context_window_for_model_priority sample_from_name sample_learned)
      as (H1 & H2 & H3 & H4 & _ & _).
    split; [|split; [|split]].
    - apply H1. reflexivity.
    - apply H2; reflexivity.
    - rewrite (H3 (sample_config false) "Claude 3 Opus" "Opus" "3");
        [reflexivity | reflexivity | left; reflexivity | reflexivity | right; reflexivity].
    - apply H4; [reflexivity | left; reflexivity |].
      right. exists "Haiku", "3". split; [reflexivity|]. split; discriminate.
Defined.

End ContextWindowFacts.

(* ------------------------------------------------------------------ *)
(** ** Compaction detection *)
Module CompactionFacts.
Import Fs Transcript Compaction.

  (** [max(0, last_known - current) / last_known] over the rationals. *)
Definition spec_drop_ratio (last_known current : N) : Q :=
    (inject_Z (Z.max 0 (Z.of_N last_known - Z.of_N current))
     / inject_Z (Z.of_N last_known))%Q.

Lemma token_drop_ratio_spec l c : (token_drop_ratio l c == spec_drop_ratio l c)%Q.
Proof.
    unfold token_drop_ratio, spec_drop_ratio.
    destruct (N.ltb_spec 0 l) as [Hl | Hl].
    - rewrite N2Z.inj_sub_max. reflexivity.
    - assert (l = 0) as -> by lia.
      unfold Qdiv. change (Qinv (inject_Z (Z.of_N 0))) with 0%Q.
      rewrite Qmult_0_r. reflexivity.
Qed.

Lemma qlt_spec a b : F64.qlt a b = true <-> (a < b)%Q.
Proof.
    unfold F64.qlt. rewrite negb_true_iff. split.
    - intros H. apply Qnot_le_lt. intros Hle.
      apply Qle_bool_iff in Hle. congruence.
    - intros H. destruct (Qle_bool b a) eqn:E; [|reflexivity].
      apply Qle_bool_iff in E. exfalso. apply (Qlt_not_le a b H E).
Qed.

Lemma drop_test_spec l c :
    F64.qlt (1 # 2) (token_drop_ratio l c) = true <->
    (1 # 2 < spec_drop_ratio l c)%Q.
Proof. rewrite qlt_spec, token_drop_ratio_spec. reflexivity. Qed.

Section Spec.
Variable read_state : string -> option HookState.
Variable db_session_max_tokens : option (string -> option N).

Lemma recently_modified_spec fs transcript_path :
      recently_modified fs transcript_path = true <->
      exists safe_path elapsed,
        validate_transcript_file fs transcript_path = Ok safe_path
        /\ modified_elapsed fs safe_path = Some elapsed /\ elapsed < 10.
Proof.
      unfold recently_modified.
      destruct (validate_transcript_file fs transcript_path) as [p|e]; simpl.
      - destruct (modified_elapsed fs p) as [el|] eqn:E.
        + split.
          * intros H. apply N.ltb_lt in H. exists p, el. auto.
          * intros (p' & el' & Hp & He & Hlt). inversion Hp; subst.
            rewrite E in He. inversion He; subst. apply N.ltb_lt. exact Hlt.
        + split; [discriminate|].
          intros (p' & el' & Hp & He & _). inversion Hp; subst. congruence.
      - split; [discriminate|]. intros (p' & el' & Hp & _). discriminate.
Qed.
End Spec.

  (** C2: classification order.  A fresh "compacting" hook state wins;
      otherwise, with a last known token count, a drop ratio above one
      half gives InProgress if the transcript was modified less than 10
      seconds ago and RecentlyCompleted if not; else a recent
      modification with [last_known > 2 * current] gives InProgress; all
      other cases, including no last known count, give Normal. *)
Theorem detect_compaction_state_spec
      (read_state : string -> option HookState)
      (db_session_max_tokens : option (string -> option N))
      (fs : FileSystem) (transcript_path : string) (current : N)
      (session_id : option string) :
    let st := detect_compaction_state read_state db_session_max_tokens
                fs transcript_path current session_id in
    let recent := recently_modified fs transcript_path in
    (recent = true <-> exists safe_path elapsed,
        validate_transcript_file fs transcript_path = Ok safe_path
        /\ modified_elapsed fs safe_path = Some elapsed /\ elapsed < 10)
    /\ (hook_compacting read_state session_id = true -> st = InProgress)
    /\ (hook_compacting read_state session_id = false ->
        last_known_tokens db_session_max_tokens session_id = None -> st = Normal)
    /\ (forall last_known,
        hook_compacting read_state session_id = false ->
        last_known_tokens db_session_max_tokens session_id = Some last_known ->
        (1 # 2 < spec_drop_ratio last_known current)%Q ->
        st = if recent then InProgress else RecentlyCompleted)
    /\ (forall last_known,
        hook_compacting read_state session_id = false ->
        last_known_tokens db_session_max_tokens session_id = Some last_known ->
        ~ (1 # 2 < spec_drop_ratio last_known current)%Q ->
        recent = true -> 2 * current < last_known -> st = InProgress)
    /\ (forall last_known,
        hook_compacting read_state session_id = false ->
        last_known_tokens db_session_max_tokens session_id = Some last_known ->
        ~ (1 # 2 < spec_drop_ratio last_known current)%Q ->
        ~ (recent = true /\ 2 * current < last_known) -> st = Normal).
Proof.
    intros st recent. subst st recent.
    split; [apply recently_modified_spec|].
    unfold detect_compaction_state.
    split; [intros H; rewrite H; reflexivity|].
    split; [intros H Hl; rewrite H, Hl; reflexivity|].
    split; [|split].
    - intros l H Hl Hr. rewrite H, Hl.
      apply drop_test_spec in Hr. rewrite Hr. reflexivity.
    - intros l H Hl Hr Hrec Hlt. rewrite H, Hl.
      destruct (F64.qlt (1 # 2) (token_drop_ratio l current)) eqn:E.
      + exfalso. apply Hr, drop_test_spec, E.
      + rewrite Hrec. replace (current * 2 <? l) with true by (symmetry; apply N.ltb_lt; lia).
        reflexivity.
    - intros l H Hl Hr Hn. rewrite H, Hl.
      destruct (F64.qlt (1 # 2) (token_drop_ratio l current)) eqn:E.
      + exfalso. apply Hr, drop_test_spec, E.
      + destruct (recently_modified fs transcript_path); [|reflexivity].
        destruct (N.ltb_spec (current * 2) l); [|reflexivity].
        exfalso. apply Hn. split; [reflexivity | lia].
Qed.

  (** A transcript that exists, is a regular [.jsonl] file and was
      modified [age] seconds ago. *)
Definition sample_fs (age : N) : FileSystem :=
    {| canonicalize := fun p => Some p;
       is_file := fun _ => true;
       open_ok := fun _ => true;
       file_size := fun _ => Some 0;
       lines_from := fun _ _ => [];
       modified_elapsed := fun _ => Some age |}.

Definition no_hook (_ : string) : option HookState := None.
Definition compacting_hook (_ : string) : option HookState :=
    Some {| state := "compacting"; trigger := "auto" |}.
Definition db_with (last : option N) : option (string -> option N) :=
    Some (fun _ => last).

Lemma detect_compaction_state_spec_witness :
    detect_compaction_state no_hook (db_with (Some 200000)) (sample_fs 2)
      "/tmp/t.jsonl" 50000 (Some "S") = InProgress
    /\ detect_compaction_state no_hook (db_with (Some 200000)) (sample_fs 30)
      "/tmp/t.jsonl" 50000 (Some "S") = RecentlyCompleted
    /\ detect_compaction_state no_hook (db_with None) (sample_fs 2)
      "/tmp/t.jsonl" 50000 (Some "S") = Normal
    /\ detect_compaction_state compacting_hook (db_with None) (sample_fs 30)
      "/tmp/t.jsonl" 180000 (Some "S") = InProgress.
Proof.
    split; [|split; [|split]].
    - destruct (detect_compaction_state_spec no_hook (db_with (Some 200000))
                  (sample_fs 2) "/tmp/t.jsonl" 50000 (Some "S"))
        as (_ & _ & _ & H & _).
      rewrite (H 200000 eq_refl eq_refl); [reflexivity|].
      vm_compute. reflexivity.
    - destruct (detect_compaction_state_spec no_hook (db_with (Some 200000))
                  (sample_fs 30) "/tmp/t.jsonl" 50000 (Some "S"))
        as (_ & _ & _ & H & _).
      rewrite (H 200000 eq_refl eq_refl); [reflexivity|].
      vm_compute. reflexivity.
    - destruct (detect_compaction_state_spec no_hook (db_with None)
                  (sample_fs 2) "/tmp/t.jsonl" 50000 (Some "S"))
        as (_ & _ & H & _).
      apply H; reflexivity.
    - destruct (detect_compaction_state_spec compacting_hook (db_with None)
                  (sample_fs 30) "/tmp/t.jsonl" 180000 (Some "S"))
        as (_ & H & _).
      apply H; reflexivity.
Defined.

End CompactionFacts.

(* ------------------------------------------------------------------ *)
(** ** Token extraction: the running maximum *)
Module TranscriptFacts.
Import Fs Models Transcript.

Section Scan.
Variable parse_entry : string -> option TranscriptEntry.

Lemma scan_total_inv (lines : list string) (acc : TokenBreakdown * N) :
      snd acc = loop_total (fst acc) ->
      snd (fold_left (scan_step parse_entry) lines acc)
        = loop_total (fst (fold_left (scan_step parse_entry) lines acc)).
Proof.
      revert acc; induction lines as [|line lines IH]; intros [best mx] Hacc;
        [exact Hacc|].
      simpl. apply IH. unfold scan_step.
      destruct (parse_entry line) as [e|]; [|exact Hacc].
      destruct (String.eqb _ _); [|exact Hacc].
      destruct (usage (message e)) as [u|]; [|exact Hacc].
      destruct (N.ltb _ _); [reflexivity | exact Hacc].
Qed.

Lemma select_breakdown_pos (lines : list string) (b : TokenBreakdown) :
      select_breakdown parse_entry lines = Some b -> 0 < loop_total b.
Proof.
      unfold select_breakdown.
      pose proof (scan_total_inv lines (default_breakdown, 0) eq_refl) as Hinv.
      destruct (fold_left (scan_step parse_entry) lines (default_breakdown, 0))
        as [best mx].
      simpl in Hinv. destruct (N.ltb_spec 0 mx); [|discriminate].
      intros Hb. inversion Hb; subst. lia.
Qed.

Lemma get_token_count_pos (buffer_lines : N) (fs : FileSystem) (p : string)
        (total : N) :
      fst (get_token_count_from_transcript parse_entry buffer_lines fs p) = Some total ->
      0 < total.
Proof.
      unfold get_token_count_from_transcript, get_token_breakdown_from_transcript.
      destruct (ok (validate_transcript_file fs p)) as [sp|]; [|discriminate].
      destruct (negb (open_ok fs sp)); [discriminate|].
      destruct (Fs.file_size fs sp) as [sz|]; [|discriminate].
      simpl. destruct (select_breakdown parse_entry _) as [b|] eqn:E; [|discriminate].
      simpl. intros H; inversion H; subst. apply (select_breakdown_pos _ _ E).
Qed.
End Scan.

End TranscriptFacts.

(* ------------------------------------------------------------------ *)
(** ** Context usage *)
Module UsageFacts.
Import Fs Config Transcript Compaction ContextWindow F64 Usage.

Lemma div_N_nonneg a b q : div_N a b = Fin q -> (0 <= q)%Q.
Proof.
    unfold div_N. destruct (decide (b = 0)) as [Hb|Hb].
    - destruct (decide (a = 0)); discriminate.
    - intros H; inversion H; subst.
      apply Qle_shift_div_l.
      + unfold Qlt; simpl; lia.
      + rewrite Qmult_0_l. unfold Qle; simpl; lia.
Qed.

Lemma raw_percentage_nonneg config total full working q :
    raw_percentage config total full working = Fin q -> (0 <= q)%Q.
Proof.
    unfold raw_percentage, mul.
    destruct (String.eqb _ _);
      [destruct (div_N total working) as [r| |] eqn:E
      |destruct (div_N total full) as [r| |] eqn:E]; try discriminate;
      intros H; inversion H; subst;
      apply Qmult_le_0_compat; [eapply div_N_nonneg; eauto | discriminate
                               |eapply div_N_nonneg; eauto | discriminate].
Qed.

Lemma min_100_bounds x :
    (forall q, x = Fin q -> 0 <= q)%Q ->
    exists q, min x 100 = Fin q /\ (0 <= q <= 100)%Q.
Proof.
    intros Hx. destruct x as [q| |]; simpl.
    - exists (Qmin q 100). split; [reflexivity|]. split.
      + apply Q.min_glb; [apply Hx; reflexivity | discriminate].
      + apply Q.le_min_r.
    - exists 100%Q. split; [reflexivity|]. split; discriminate.
    - exists 100%Q. split; [reflexivity|]. split; discriminate.
Qed.

Lemma usage_from_percentage_bounds config total base cs :
    exists q, percentage (usage_from config total base cs) = Fin q
              /\ (0 <= q <= 100)%Q.
Proof.
    unfold usage_from. destruct (windows config base) as [full working].
    simpl. apply min_100_bounds. intros q Hq.
    eapply raw_percentage_nonneg; exact Hq.
Qed.

Lemma calculate_context_usage_shape from_name learned read_state db
      parse_entry buffer_lines fs transcript_path model_name session_id config u :
    fst (calculate_context_usage from_name learned read_state db parse_entry
           buffer_lines fs transcript_path model_name session_id config) = Some u ->
    exists total_tokens,
      fst (get_token_count_from_transcript parse_entry buffer_lines fs transcript_path)
        = Some total_tokens
      /\ 0 < total_tokens
      /\ u = usage_from config total_tokens
               (get_context_window_for_model from_name learned model_name config)
               (detect_compaction_state read_state db fs transcript_path
                  total_tokens session_id).
Proof.
    unfold calculate_context_usage.
    destruct (get_token_count_from_transcript parse_entry buffer_lines fs
                transcript_path) as [[total|] reads] eqn:E; [|discriminate].
    simpl. intros H; inversion H; subst. exists total.
    split; [reflexivity|]. split; [|reflexivity].
    apply (TranscriptFacts.get_token_count_pos parse_entry buffer_lines fs
             transcript_path). rewrite E. reflexivity.
Qed.

Definition with_mode (mode : string) : ContextConfig :=
    {| window_size := 200000; model_windows := ∅; adaptive_learning := false;
       learning_confidence_threshold := 7 # 10; buffer_size := 40000;
       auto_compact_threshold := 75; percentage_mode := mode |}.

  (** C3: with adaptive learning off, the working window is the resolved
      window minus the buffer, floored at 0; the computed percentage is
      [total / full * 100] outside "working" mode and
      [total / working * 100] in "working" mode (the reported value is
      that, clamped at 100); 125,000 tokens of a 200,000 window give
      62.5 in "full" mode and 78.125 in "working" mode. *)
Theorem context_usage_learning_off (config : ContextConfig)
      (total_tokens base_window : N) (cs : CompactionState) :
    adaptive_learning config = false ->
    windows config base_window = (base_window, base_window - buffer_size config)
    /\ (buffer_size config >= base_window -> base_window - buffer_size config = 0)
    /\ (String.eqb (percentage_mode config) "working" = false ->
        raw_percentage config total_tokens base_window
          (base_window - buffer_size config)
        = mul (div_N total_tokens base_window) 100)
    /\ (String.eqb (percentage_mode config) "working" = true ->
        raw_percentage config total_tokens base_window
          (base_window - buffer_size config)
        = mul (div_N total_tokens (base_window - buffer_size config)) 100)
    /\ percentage (usage_from config total_tokens base_window cs)
       = min (raw_percentage config total_tokens base_window
                (base_window - buffer_size config)) 100
    /\ (exists q, percentage (usage_from (with_mode "full") 125000 200000 cs)
                  = Fin q /\ (q == 125 # 2)%Q)
    /\ (exists q, percentage (usage_from (with_mode "working") 125000 200000 cs)
                  = Fin q /\ (q == 625 # 8)%Q).
Proof.
    intros Hoff.
    assert (Hw : windows config base_window
                 = (base_window, base_window - buffer_size config)).
    { unfold windows. rewrite Hoff. reflexivity. }
    split; [exact Hw|]. split; [lia|].
    split; [intros Hm; unfold raw_percentage; rewrite Hm; reflexivity|].
    split; [intros Hm; unfold raw_percentage; rewrite Hm; reflexivity|].
    split; [unfold usage_from; rewrite Hw; reflexivity|].
    split; eexists; (split; [vm_compute; reflexivity | vm_compute; reflexivity]).
Qed.

Lemma context_usage_learning_off_witness :
    windows (with_mode "working") 30000 = (30000, 0)
    /\ percentage (usage_from (with_mode "working") 125000 30000 Normal)
       = min (raw_percentage (with_mode "working") 125000 30000 0) 100.
Proof.
    destruct (context_usage_learning_off (with_mode "working") 125000 30000 Normal
                eq_refl) as (Hw & _ & _ & _ & Hp & _).
    split; [exact Hw | exact Hp].
Defined.

  (** The effective-threshold rule as the code has it: a threshold more
      than 0.1 away from both 75 and 80 is kept, any other gives 94 in
      "working" mode and 75 in every other mode. *)
Definition custom_threshold (t : Q) : Prop :=
    (1 # 10 < Qabs (t - 75))%Q /\ (1 # 10 < Qabs (t - 80))%Q.

Definition with_threshold (t : Q) (mode : string) : ContextConfig :=
    {| window_size := 200000; model_windows := ∅; adaptive_learning := false;
       learning_confidence_threshold := 7 # 10; buffer_size := 40000;
       auto_compact_threshold := t; percentage_mode := mode |}.

  (** C7 as stated fails: 75.05 differs from both 75 and 80, but the
      code treats it as the default and uses 75 ("full") instead. *)
Lemma effective_threshold_near_default_counterexample :
    ~ (auto_compact_threshold (with_threshold (7505 # 100) "full") == 75)%Q
    /\ ~ (auto_compact_threshold (with_threshold (7505 # 100) "full") == 80)%Q
    /\ ~ (get_effective_threshold (with_threshold (7505 # 100) "full")
          == auto_compact_threshold (with_threshold (7505 # 100) "full"))%Q.
Proof.
    vm_compute. split; [|split]; intros H; discriminate H.
Qed.

  (** C7 (amended): the configured threshold is kept when it is more
      than 0.1 away from both 75 and 80; otherwise the effective
      threshold is 94 in "working" mode and 75 in any other mode; and
      [approaching_limit] is the unclamped percentage compared with
      [>=] against it. *)
Theorem effective_threshold_spec (config : ContextConfig) :
    (custom_threshold (auto_compact_threshold config) ->
     get_effective_threshold config = auto_compact_threshold config)
    /\ (~ custom_threshold (auto_compact_threshold config) ->
        get_effective_threshold config
        = if String.eqb (percentage_mode config) "working" then 94%Q else 75%Q)
    /\ (forall total_tokens base_window cs,
        approaching_limit (usage_from config total_tokens base_window cs)
        = ge (raw_percentage config total_tokens
                (fst (windows config base_window)) (snd (windows config base_window)))
             (get_effective_threshold config))
    /\ (forall total_tokens base_window cs q,
        raw_percentage config total_tokens
          (fst (windows config base_window)) (snd (windows config base_window)) = Fin q ->
        (approaching_limit (usage_from config total_tokens base_window cs) = true
         <-> (get_effective_threshold config <= q)%Q)).
Proof.
    assert (Happ : forall total_tokens base_window cs,
        approaching_limit (usage_from config total_tokens base_window cs)
        = ge (raw_percentage config total_tokens
                (fst (windows config base_window)) (snd (windows config base_window)))
             (get_effective_threshold config)).
    { intros total base cs. unfold usage_from.
      destruct (windows config base) as [full working]. reflexivity. }
    split; [|split; [|split; [exact Happ|]]].
    - intros [H1 H2]. unfold get_effective_threshold.
      apply CompactionFacts.qlt_spec in H1, H2. rewrite H1, H2. reflexivity.
    - intros Hn. unfold get_effective_threshold.
      destruct (F64.qlt (1 # 10) (Qabs (auto_compact_threshold config - 75)))
        eqn:E1; [|reflexivity].
      destruct (F64.qlt (1 # 10) (Qabs (auto_compact_threshold config - 80)))
        eqn:E2; [|reflexivity].
      exfalso. apply Hn. split; apply CompactionFacts.qlt_spec; assumption.
    - intros total base cs q Hq. rewrite Happ, Hq. simpl. apply Qle_bool_iff.
Qed.

Lemma effective_threshold_spec_witness :
    get_effective_threshold (with_threshold 70 "working") = 70%Q
    /\ get_effective_threshold (with_threshold 80 "working") = 94%Q.
Proof.
    destruct (effective_threshold_spec (with_threshold 70 "working")) as (H1 & _).
    destruct (effective_threshold_spec (with_threshold 80 "working")) as (_ & H2 & _).
    split.
    - apply H1. split; vm_compute; reflexivity.
    - rewrite H2; [reflexivity|]. intros [_ H]. vm_compute in H. discriminate H.
Defined.

  (** C9: every produced [ContextUsage] has a finite percentage in
      [0, 100] (100 when the working window is 0 in "working" mode) and
      [tokens_remaining = working - total] with saturating subtraction;
      the computation is total. *)
Theorem calculate_context_usage_bounds
      (from_name : string -> ModelType)
      (learned : string -> Q -> option (option N))
      (read_state : string -> option HookState)
      (db : option (string -> option N))
      (parse_entry : string -> option Models.TranscriptEntry)
      (buffer_lines : N) (fs : FileSystem) (transcript_path : string)
      (model_name session_id : option string) (config : ContextConfig)
      (u : ContextUsage) :
    fst (calculate_context_usage from_name learned read_state db parse_entry
           buffer_lines fs transcript_path model_name session_id config) = Some u ->
    (exists q, percentage u = Fin q /\ (0 <= q <= 100)%Q)
    /\ exists total_tokens base_window,
        0 < total_tokens
        /\ tokens_remaining u = snd (windows config base_window) - total_tokens
        /\ (String.eqb (percentage_mode config) "working" = true ->
            snd (windows config base_window) = 0 -> percentage u = Fin 100).
Proof.
    intros H.
    destruct (calculate_context_usage_shape from_name learned read_state db
                parse_entry buffer_lines fs transcript_path model_name session_id
                config u H) as (total & _ & Hpos & ->).
    split; [apply usage_from_percentage_bounds|].
    set (base := get_context_window_for_model from_name learned model_name config).
    exists total, base. split; [exact Hpos|].
    unfold usage_from. destruct (windows config base) as [full working]. simpl.
    split; [reflexivity|].
    intros Hm Hw. subst working. unfold raw_percentage. rewrite Hm.
    unfold div_N. rewrite decide_True by reflexivity.
    rewrite decide_False by lia. reflexivity.
Qed.

  (** One assistant line with 150,000 input tokens. *)
Definition sample_entry : Models.TranscriptEntry :=
    {| Models.message :=
         {| Models.role := "assistant";
            Models.usage := Some {| Models.Usage.input_tokens := Some 150000;
                                    Models.Usage.output_tokens := None;
                                    Models.Usage.cache_creation_input_tokens := None;
                                    Models.Usage.cache_read_input_tokens := None |} |};
       Models.timestamp := "2025-01-01T00:00:00Z" |}.

Definition sample_parse (line : string) : option Models.TranscriptEntry :=
    if String.eqb line "entry" then Some sample_entry else None.

Definition sample_transcript_fs : FileSystem :=
    {| canonicalize := fun p => Some p;
       is_file := fun _ => true;
       open_ok := fun _ => true;
       file_size := fun _ => Some 100;
       lines_from := fun _ _ => ["garbage"; "entry"];
       modified_elapsed := fun _ => Some 60 |}.

Definition tight_config : ContextConfig :=
    {| window_size := 200000; model_windows := ∅; adaptive_learning := false;
       learning_confidence_threshold := 7 # 10; buffer_size := 250000;
       auto_compact_threshold := 75; percentage_mode := "working" |}.

Definition sample_usage : ContextUsage :=
    match fst (calculate_context_usage (fun _ => Unknown) (fun _ _ => None)
                 (fun _ => None) None sample_parse 50 sample_transcript_fs
                 "/tmp/t.jsonl" (Some "Claude") None tight_config) with
    | Some u => u
    | None => usage_from tight_config 0 0 Normal
    end.

Lemma calculate_context_usage_bounds_witness :
    exists q, percentage sample_usage = Fin q /\ (0 <= q <= 100)%Q.
Proof.
    apply (proj1 (calculate_context_usage_bounds (fun _ => Unknown) (fun _ _ => None)
                    (fun _ => None) None sample_parse 50 sample_transcript_fs
                    "/tmp/t.jsonl" (Some "Claude") None tight_config sample_usage
                    ltac:(vm_compute; reflexivity))).
Defined.

End UsageFacts.

(* ------------------------------------------------------------------ *)
(** ** Token extraction: which entry is selected *)
Module SelectionFacts.
Import Fs Models Transcript.

  (** The four counts summed without wrap-around. *)
Definition true_total (b : TokenBreakdown) : N :=
    input_tokens b + output_tokens b + cache_read_tokens b + cache_creation_tokens b.

Lemma loop_total_no_wrap b :
    true_total b < 4294967296 -> loop_total b = true_total b.
Proof.
    unfold true_total, loop_total, u32_add. intros H.
    rewrite (N.mod_small (input_tokens b + cache_read_tokens b)) by lia.
    rewrite (N.mod_small (input_tokens b + cache_read_tokens b
                          + cache_creation_tokens b)) by lia.
    rewrite N.mod_small by lia. lia.
Qed.

  (** Running maximum over candidates, as the loop performs it. *)
Definition max_step (tot : TokenBreakdown -> N) (acc : TokenBreakdown * N)
      (c : TokenBreakdown) : TokenBreakdown * N :=
    if snd acc <? tot c then (c, tot c) else acc.

Lemma max_fold_spec (tot : TokenBreakdown -> N) (l : list TokenBreakdown)
      (best : TokenBreakdown) (mx : N) :
    let r := fold_left (max_step tot) l (best, mx) in
    mx <= snd r
    /\ Forall (fun c => tot c <= snd r) l
    /\ ((r = (best, mx))
        \/ (mx < snd r /\ tot (fst r) = snd r
            /\ exists pre post, l = pre ++ fst r :: post
                                /\ Forall (fun c => tot c < snd r) pre)).
Proof.
    revert best mx; induction l as [|c l IH]; intros best mx; cbv zeta; simpl.
    - split; [lia|]. split; [constructor|]. left; reflexivity.
    - change (max_step tot (best, mx) c)
        with (if mx <? tot c then (c, tot c) else (best, mx)).
      destruct (N.ltb_spec mx (tot c)) as [Hlt|Hge].
      + destruct (IH c (tot c)) as (Hm & Hall & [Heq | (Hgt & Ht & pre & post & Hl & Hpre)]).
        * rewrite Heq in *; simpl in *. split; [lia|].
          split; [constructor; [lia | exact Hall]|].
          right. split; [lia|]. split; [reflexivity|].
          exists [], l. split; [reflexivity | constructor].
        * split; [lia|]. split; [constructor; [lia | exact Hall]|].
          right. split; [lia|]. split; [exact Ht|].
          exists (c :: pre), post. split; [simpl; rewrite <- Hl; reflexivity|].
          constructor; [lia | exact Hpre].
      + destruct (IH best mx) as (Hm & Hall & [Heq | (Hgt & Ht & pre & post & Hl & Hpre)]).
        * rewrite Heq in *; simpl in *. split; [lia|].
          split; [constructor; [lia | exact Hall]|]. left; reflexivity.
        * split; [lia|]. split; [constructor; [lia | exact Hall]|].
          right. split; [lia|]. split; [exact Ht|].
          exists (c :: pre), post. split; [simpl; rewrite <- Hl; reflexivity|].
          constructor; [lia | exact Hpre].
Qed.

Section Select.
Variable parse_entry : string -> option TranscriptEntry.

Definition breakdown_of_usage (u : Usage.Usage) : TokenBreakdown :=
      {| input_tokens := default 0 (Usage.input_tokens u);
         output_tokens := default 0 (Usage.output_tokens u);
         cache_read_tokens := default 0 (Usage.cache_read_input_tokens u);
         cache_creation_tokens := default 0 (Usage.cache_creation_input_tokens u) |}.

    (** The line's breakdown when it parses as an assistant entry with
        usage data. *)
Definition candidate (line : string) : option TokenBreakdown :=
      match parse_entry line with
      | Some entry =>
          if String.eqb (role (message entry)) "assistant" then
            option_map breakdown_of_usage (usage (message entry))
          else None
      | None => None
      end.

Definition candidates (lines : list string) : list TokenBreakdown :=
      omap candidate lines.

Lemma scan_step_candidate acc line :
      scan_step parse_entry acc line =
        match candidate line with
        | Some c => max_step loop_total acc c
        | None => acc
        end.
Proof.
      destruct acc as [best mx]. unfold scan_step, candidate.
      destruct (parse_entry line) as [e|]; [|reflexivity].
      destruct (String.eqb _ _); [|reflexivity].
      destruct (usage (message e)); reflexivity.
Qed.

Lemma scan_fold_candidates lines acc :
      fold_left (scan_step parse_entry) lines acc
      = fold_left (max_step loop_total) (candidates lines) acc.
Proof.
      revert acc; induction lines as [|line lines IH]; intros acc; [reflexivity|].
      unfold candidates; simpl. rewrite scan_step_candidate.
      destruct (candidate line); simpl; apply IH.
Qed.
End Select.

Lemma get_token_breakdown_window parse_entry buffer_lines fs p safe_path sz :
    validate_transcript_file fs p = Ok safe_path ->
    open_ok fs safe_path = true ->
    Fs.file_size fs safe_path = Some sz ->
    get_token_breakdown_from_transcript parse_entry buffer_lines fs p
    = (select_breakdown parse_entry
         (trailing_window buffer_lines fs safe_path sz), [safe_path]).
Proof.
    intros Hv Ho Hs. unfold get_token_breakdown_from_transcript.
    rewrite Hv; simpl. rewrite Ho, Hs. reflexivity.
Qed.

  (** An entry whose four counts are all zero. *)
Definition zero_entry : TranscriptEntry :=
    {| message := {| role := "assistant";
                     usage := Some {| Usage.input_tokens := Some 0;
                                      Usage.output_tokens := Some 0;
                                      Usage.cache_creation_input_tokens := None;
                                      Usage.cache_read_input_tokens := None |} |};
       timestamp := "2025-01-01T00:00:00Z" |}.

Definition zero_parse (line : string) : option TranscriptEntry :=
    if String.eqb line "zero" then Some zero_entry else None.

Definition zero_fs : FileSystem :=
    {| canonicalize := fun p => Some p;
       is_file := fun _ => true;
       open_ok := fun _ => true;
       file_size := fun _ => Some 100;
       lines_from := fun _ _ => ["zero"];
       modified_elapsed := fun _ => Some 60 |}.

  (** C5 as stated fails: the trailing window holds an assistant entry
      with usage data, yet extraction returns nothing, because its total
      is 0 and the loop only keeps totals above the initial maximum 0. *)
Lemma token_breakdown_zero_usage_counterexample :
    trailing_window 50 zero_fs "/tmp/t.jsonl" 100 = ["zero"]
    /\ candidates zero_parse ["zero"] <> []
    /\ fst (get_token_breakdown_from_transcript zero_parse 50 zero_fs "/tmp/t.jsonl")
       = None.
Proof. vm_compute. split; [reflexivity | split; [discriminate | reflexivity]]. Qed.

  (** C5 (amended): among the window's assistant entries with usage data
      (whose four counts sum to less than 2^32), extraction returns the
      first entry with the highest total, provided that total is
      positive; it returns nothing when every such entry totals 0, when
      there is none, or when no line parses. *)
Theorem select_breakdown_peak (parse_entry : string -> option TranscriptEntry)
      (lines : list string) :
    Forall (fun c => true_total c < 4294967296) (candidates parse_entry lines) ->
    (Forall (fun c => true_total c = 0) (candidates parse_entry lines) ->
     select_breakdown parse_entry lines = None)
    /\ (forall b, select_breakdown parse_entry lines = Some b ->
        0 < true_total b
        /\ Forall (fun c => true_total c <= true_total b) (candidates parse_entry lines)
        /\ exists pre post, candidates parse_entry lines = pre ++ b :: post
                            /\ Forall (fun c => true_total c < true_total b) pre)
    /\ ((exists c, c ∈ candidates parse_entry lines /\ 0 < true_total c) ->
        exists b, select_breakdown parse_entry lines = Some b).
Proof.
    intros Hnw. unfold select_breakdown. rewrite scan_fold_candidates.
    set (cands := candidates parse_entry lines) in *.
    assert (Heqt : forall c, c ∈ cands -> loop_total c = true_total c).
    { intros c Hc. apply loop_total_no_wrap.
      rewrite Forall_forall in Hnw. apply Hnw, Hc. }
    pose proof (max_fold_spec loop_total cands default_breakdown 0) as Hspec.
    cbv zeta in Hspec.
    destruct (fold_left (max_step loop_total) cands (default_breakdown, 0))
      as [b' m'] eqn:E.
    simpl in Hspec. destruct Hspec as (_ & Hall & Hcase).
    rewrite Forall_forall in Hall.
    assert (Hin : m' <> 0 -> b' ∈ cands /\ loop_total b' = m'
                  /\ exists pre post, cands = pre ++ b' :: post
                                      /\ Forall (fun c => loop_total c < m') pre).
    { intros Hm. destruct Hcase as [Heq | (_ & Ht & pre & post & Hl & Hpre)].
      - inversion Heq; subst. contradiction.
      - split; [|split; [exact Ht | exists pre, post; split; assumption]].
        rewrite Hl. apply elem_of_app. right. apply elem_of_cons. left; reflexivity. }
    split; [|split].
    - intros Hz. destruct (N.ltb_spec 0 m') as [Hpos|]; [|reflexivity].
      exfalso. destruct (Hin ltac:(lia)) as (Hb & Ht & _).
      rewrite Forall_forall in Hz. specialize (Hz b' Hb).
      rewrite (Heqt b' Hb) in Ht. lia.
    - intros b Hb. destruct (N.ltb_spec 0 m') as [Hpos|]; [|discriminate].
      inversion Hb; subst b.
      destruct (Hin ltac:(lia)) as (Hb' & Ht & pre & post & Hl & Hpre).
      rewrite (Heqt b' Hb') in Ht. subst m'.
      split; [lia|]. split.
      + apply Forall_forall. intros c Hc. rewrite <- (Heqt c Hc). apply Hall, Hc.
      + exists pre, post. split; [exact Hl|].
        apply Forall_forall. intros c Hc.
        assert (Hcin : c ∈ cands).
        { rewrite Hl. apply elem_of_app. left. exact Hc. }
        rewrite <- (Heqt c Hcin). rewrite Forall_forall in Hpre. apply Hpre, Hc.
    - intros (c & Hc & Hpos). exists b'.
      pose proof (Hall c Hc) as Hle. rewrite (Heqt c Hc) in Hle.
      destruct (N.ltb_spec 0 m'); [reflexivity | lia].
Qed.

Definition usage_of (n : N) : Usage.Usage :=
    {| Usage.input_tokens := Some n; Usage.output_tokens := Some 1;
       Usage.cache_creation_input_tokens := None;
       Usage.cache_read_input_tokens := None |}.

Definition entry_of (n : N) : TranscriptEntry :=
    {| message := {| role := "assistant"; usage := Some (usage_of n) |};
       timestamp := "2025-01-01T00:00:00Z" |}.

Definition two_parse (line : string) : option TranscriptEntry :=
    if String.eqb line "small" then Some (entry_of 1000)
    else if String.eqb line "big" then Some (entry_of 5000) else None.

Lemma select_breakdown_peak_witness :
    exists b, select_breakdown two_parse ["small"; "big"; "small"] = Some b
              /\ true_total b = 5001.
Proof.
    destruct (select_breakdown_peak two_parse ["small"; "big"; "small"]
                ltac:(apply Forall_forall; intros c Hc;
                      apply list_elem_of_In in Hc; simpl in Hc;
                      destruct Hc as [<- | [<- | [<- | []]]]; reflexivity))
      as (_ & H2 & H3).
    destruct H3 as [b Hb].
    - exists (breakdown_of_usage (usage_of 5000)). split.
      + apply list_elem_of_In. simpl. auto.
      + vm_compute. reflexivity.
    - exists b. split; [exact Hb|].
      vm_compute in Hb. inversion Hb. reflexivity.
Defined.

End SelectionFacts.

(* ------------------------------------------------------------------ *)
(** ** Transcript path validation *)
Module ValidationFacts.
Import Fs Models Transcript.

  (** The four ways a transcript path is refused. *)
Definition rejected_path (fs : FileSystem) (path : string) : Prop :=
    (exists pre post, path = pre +:+ String NUL post)
    \/ canonicalize fs path = None
    \/ (exists canonical_path, canonicalize fs path = Some canonical_path
        /\ (is_file fs canonical_path = false
            \/ forall ext, extension canonical_path = Some ext ->
                           Str.eq_ignore_ascii_case ext "jsonl" = false)).

Lemma contains_char_app c pre post :
    Str.contains_char c (pre +:+ String c post) = true.
Proof.
    induction pre as [|x pre IH]; simpl.
    - rewrite Ascii.eqb_refl. reflexivity.
    - rewrite IH, orb_true_r. reflexivity.
Qed.

Lemma validate_rejected fs path :
    rejected_path fs path -> exists e, validate_transcript_file fs path = Err e.
Proof.
    unfold validate_transcript_file, validate_path_security.
    intros [(pre & post & ->) | [Hc | (cp & Hc & Hbad)]].
    - rewrite contains_char_app. eexists; reflexivity.
    - destruct (Str.contains_char NUL path); [eexists; reflexivity|].
      rewrite Hc. eexists; reflexivity.
    - destruct (Str.contains_char NUL path); [eexists; reflexivity|].
      rewrite Hc. destruct Hbad as [Hf | Hext].
      + rewrite Hf. eexists; reflexivity.
      + destruct (negb (is_file fs cp)); [eexists; reflexivity|].
        destruct (extension cp) as [ext|]; [|eexists; reflexivity].
        rewrite (Hext ext eq_refl). eexists; reflexivity.
Qed.

  (** C6: a path with a null byte, that cannot be canonicalised, that
      does not resolve to a regular file, or whose extension is not
      [jsonl] in any letter case, fails validation; token extraction,
      token counting, duration parsing and context-usage calculation
      then all return "no data" and read no file. *)
Theorem transcript_validation_failure (fs : FileSystem) (path : string) :
    rejected_path fs path ->
    (exists e, validate_transcript_file fs path = Err e)
    /\ (forall parse_entry buffer_lines,
        get_token_breakdown_from_transcript parse_entry buffer_lines fs path = (None, []))
    /\ (forall parse_entry buffer_lines,
        get_token_count_from_transcript parse_entry buffer_lines fs path = (None, []))
    /\ (forall parse_entry parse_iso8601_to_unix,
        parse_duration parse_entry parse_iso8601_to_unix fs path = (None, []))
    /\ (forall from_name learned read_state db parse_entry buffer_lines
               model_name session_id config,
        Usage.calculate_context_usage from_name learned read_state db parse_entry
          buffer_lines fs path model_name session_id config = (None, [])).
Proof.
    intros Hr. destruct (validate_rejected fs path Hr) as [e He].
    assert (Hb : forall parse_entry buffer_lines,
        get_token_breakdown_from_transcript parse_entry buffer_lines fs path = (None, [])).
    { intros pe bl. unfold get_token_breakdown_from_transcript. rewrite He. reflexivity. }
    assert (Hcnt : forall parse_entry buffer_lines,
        get_token_count_from_transcript parse_entry buffer_lines fs path = (None, [])).
    { intros pe bl. unfold get_token_count_from_transcript. rewrite Hb. reflexivity. }
    split; [exists e; exact He|]. split; [exact Hb|]. split; [exact Hcnt|].
    split.
    - intros pe iso. unfold parse_duration. rewrite He. reflexivity.
    - intros. unfold Usage.calculate_context_usage. rewrite Hcnt. reflexivity.
Qed.

Definition plain_fs : FileSystem :=
    {| canonicalize := fun p => Some p;
       is_file := fun _ => true;
       open_ok := fun _ => true;
       file_size := fun _ => Some 100;
       lines_from := fun _ _ => ["{}"];
       modified_elapsed := fun _ => Some 1 |}.

Lemma transcript_validation_failure_witness :
    (exists e, validate_transcript_file plain_fs ("/tmp/a" +:+ String NUL ".jsonl")
               = Err e)
    /\ parse_duration (fun _ => None) (fun _ => None) plain_fs "/tmp/notes.txt"
       = (None, []).
Proof.
    split.
    - apply (transcript_validation_failure plain_fs _
               (or_introl (ex_intro _ "/tmp/a" (ex_intro _ ".jsonl" eq_refl)))).
    - apply (transcript_validation_failure plain_fs "/tmp/notes.txt").
      right; right. exists "/tmp/notes.txt". split; [reflexivity|].
      right. intros ext Hext. vm_compute in Hext. inversion Hext. reflexivity.
Defined.

End ValidationFacts.

(* ------------------------------------------------------------------ *)
(** ** The stats ledger *)
Module StatsFacts.
Import Stats.

Definition totals (b : option Bucket) : Qc * Z * Z :=
    match b with
    | Some b => (total_cost b, total_lines_added b, total_lines_removed b)
    | None => (0%Qc, 0%Z, 0%Z)
    end.

  (** Bucket totals after applying the deltas of [inv] relative to [st]. *)
Definition shifted (st : Store) (inv : Invocation) (t : Qc * Z * Z) : Qc * Z * Z :=
    let '(c, a, r) := t in
    ((c + (inv_cost inv - prev_cost st (session_id inv)))%Qc,
     (a + (inv_lines_added inv - prev_added st (session_id inv)))%Z,
     (r + (inv_lines_removed inv - prev_removed st (session_id inv)))%Z).

Lemma sum_costs_insert (m : gmap string Session) k v :
    sum_costs (<[k := v]> m) = (cost v + sum_costs (delete k m))%Qc.
Proof.
    unfold sum_costs. rewrite <- insert_delete_eq.
    rewrite (map_fold_insert_L (fun _ s acc => (cost s + acc)%Qc) 0%Qc k v (delete k m)).
    - reflexivity.
    - intros. ring.
    - apply lookup_delete_eq.
Qed.

Lemma sum_costs_split (m : gmap string Session) k :
    sum_costs m
    = ((match m !! k with Some s => cost s | None => 0 end) + sum_costs (delete k m))%Qc.
Proof.
    destruct (m !! k) as [s|] eqn:E.
    - rewrite <- (insert_delete_id m k s E) at 1. rewrite sum_costs_insert.
      rewrite delete_delete_eq. reflexivity.
    - rewrite delete_id by exact E. ring.
Qed.

Lemma record_cost_inv st inv :
    all_time_cost (all_time st) = sum_costs (session_rows st) ->
    all_time_cost (all_time (record st inv)) = sum_costs (session_rows (record st inv)).
Proof.
    intros H. simpl. rewrite sum_costs_insert, H.
    rewrite (sum_costs_split (session_rows st) (session_id inv)).
    unfold prev_cost. simpl. ring.
Qed.

Lemma run_from_cost_inv h st :
    all_time_cost (all_time st) = sum_costs (session_rows st) ->
    all_time_cost (all_time (run_from st h)) = sum_costs (session_rows (run_from st h)).
Proof.
    revert st; induction h as [|inv h IH]; intros st H; [exact H|].
    simpl. apply IH, record_cost_inv, H.
Qed.

Lemma record_dom st inv :
    dom (session_rows (record st inv)) = {[session_id inv]} ∪ dom (session_rows st).
Proof. simpl. apply dom_insert_L. Qed.

Lemma run_from_dom h st :
    dom (session_rows (run_from st h))
    = list_to_set (map session_id h) ∪ dom (session_rows st).
Proof.
    revert st; induction h as [|inv h IH]; intros st; simpl.
    - set_solver.
    - rewrite IH, record_dom. set_solver.
Qed.

Lemma record_count_inv st inv :
    session_count (all_time st) = N.of_nat (size (dom (session_rows st))) ->
    session_count (all_time (record st inv))
    = N.of_nat (size (dom (session_rows (record st inv)))).
Proof.
    intros H. rewrite record_dom. simpl.
    destruct (session_rows st !! session_id inv) as [s|] eqn:E.
    - assert (Hin : session_id inv ∈ dom (session_rows st))
        by (apply elem_of_dom; eauto).
      replace ({[session_id inv]} ∪ dom (session_rows st))
        with (dom (session_rows st)) by set_solver.
      exact H.
    - assert (Hnin : session_id inv ∉ dom (session_rows st))
        by (apply not_elem_of_dom; exact E).
      rewrite size_union by set_solver. rewrite size_singleton. lia.
Qed.

Lemma run_from_count_inv h st :
    session_count (all_time st) = N.of_nat (size (dom (session_rows st))) ->
    session_count (all_time (run_from st h))
    = N.of_nat (size (dom (session_rows (run_from st h)))).
Proof.
    revert st; induction h as [|inv h IH]; intros st H; [exact H|].
    simpl. apply IH, record_count_inv, H.
Qed.

Lemma run_from_other_sessions h st sid :
    Forall (fun i => session_id i <> sid) h ->
    session_rows (run_from st h) !! sid = session_rows st !! sid.
Proof.
    revert st; induction h as [|inv h IH]; intros st Hh; [reflexivity|].
    inversion Hh as [|? ? Hne Hrest]; subst. simpl.
    rewrite IH by exact Hrest. simpl. apply lookup_insert_ne. exact Hne.
Qed.

Lemma record_bucket_totals (sel : Store -> gmap string Bucket)
      (key : Invocation -> string) st inv d :
    sel (record st inv)
    = <[key inv := apply_delta (session_id inv)
                     (inv_cost inv - prev_cost st (session_id inv))%Qc
                     (inv_lines_added inv - prev_added st (session_id inv))%Z
                     (inv_lines_removed inv - prev_removed st (session_id inv))%Z
                     (sel st !! key inv)]> (sel st) ->
    totals (sel (record st inv) !! d)
    = if decide (d = key inv) then shifted st inv (totals (sel st !! d))
      else totals (sel st !! d).
Proof.
    intros ->. destruct (decide (d = key inv)) as [->|Hne].
    - rewrite lookup_insert_eq. unfold apply_delta, shifted, totals.
      destruct (sel st !! key inv); reflexivity.
    - rewrite lookup_insert_ne by congruence. reflexivity.
Qed.

Lemma run_latest_row h1 inv h2 :
    Forall (fun i => session_id i <> session_id inv) h2 ->
    exists row, session_rows (run (h1 ++ inv :: h2)) !! session_id inv = Some row
      /\ cost row = inv_cost inv /\ lines_added row = inv_lines_added inv
      /\ lines_removed row = inv_lines_removed inv.
Proof.
    intros Hh. unfold run, run_from. rewrite fold_left_app. simpl.
    change (fold_left record h2 ?s) with (run_from s h2).
    rewrite run_from_other_sessions by exact Hh. simpl.
    rewrite lookup_insert_eq. eexists; repeat split.
Qed.

Lemma run_session_count h :
    session_count (all_time (run h))
    = N.of_nat (size (list_to_set (map session_id h) : gset string)).
Proof.
    unfold run. rewrite run_from_count_inv.
    - rewrite run_from_dom. simpl. rewrite dom_empty_L, union_empty_r_L. reflexivity.
    - simpl. rewrite dom_empty_L, size_empty. reflexivity.
Qed.

  (** Invocations of the worked examples. *)
Definition inv_at (sid : string) (c : Q) (a r : Z) (t : N) (d mo : string)
      : Invocation :=
    {| session_id := sid; inv_cost := Q2Qc c; inv_lines_added := a;
       inv_lines_removed := r; inv_time := t; inv_date := d;
       inv_month := mo; inv_tokens := 0 |}.

Definition same_day_history : list Invocation :=
    [inv_at "S" 10 100 20 1 "2025-01-01" "2025-01";
     inv_at "S" 6 100 20 2 "2025-01-01" "2025-01"].

Definition two_day_history : list Invocation :=
    [inv_at "long-session" 10 100 20 1 "2025-01-01" "2025-01";
     inv_at "long-session" 15 150 30 90000 "2025-01-02" "2025-01"].

Definition three_day_history : list Invocation :=
    [inv_at "S" 1 1 0 1 "2025-01-30" "2025-01"; inv_at "S" 2 2 0 90000 "2025-01-31" "2025-01";
     inv_at "S" 3 3 0 180000 "2025-02-01" "2025-02"].

  (** C1: for a sequence of [record] calls: after the last call of a
      session its row holds exactly that call's absolute cost and line
      counts (replacement); one call changes the daily and monthly
      bucket of its date/month only, and by the delta between the new and
      the previously stored absolutes (other buckets unchanged); the
      all-time cost equals the sum of the sessions' current absolute
      costs; the all-time session count equals the number of distinct
      session ids seen, and a call grows it by 1 exactly when its session
      is new. Worked examples: 10 then 6 on one day leaves the day at 6;
      10 then 15 across two days gives all-time 15 and count 1; one
      session over three days counts once. *)
Theorem stats_record_invariants :
    (forall h1 inv h2,
        Forall (fun i => session_id i <> session_id inv) h2 ->
        exists row, session_rows (run (h1 ++ inv :: h2)) !! session_id inv = Some row
          /\ cost row = inv_cost inv /\ lines_added row = inv_lines_added inv
          /\ lines_removed row = inv_lines_removed inv)
    /\ (forall st inv d,
        totals (daily (record st inv) !! d)
        = if decide (d = inv_date inv) then shifted st inv (totals (daily st !! d))
          else totals (daily st !! d))
    /\ (forall st inv m,
        totals (monthly (record st inv) !! m)
        = if decide (m = inv_month inv) then shifted st inv (totals (monthly st !! m))
          else totals (monthly st !! m))
    /\ (forall h, all_time_cost (all_time (run h)) = sum_costs (session_rows (run h)))
    /\ (forall h, session_count (all_time (run h))
                  = N.of_nat (size (list_to_set (map session_id h) : gset string)))
    /\ (forall st inv, session_count (all_time (record st inv))
                       = session_count (all_time st)
                         + if decide (session_rows st !! session_id inv = None)
                           then 1 else 0)
    /\ day_cost (run same_day_history) "2025-01-01" = Q2Qc 6
    /\ all_time_cost (all_time (run two_day_history)) = Q2Qc 15
    /\ session_count (all_time (run two_day_history)) = 1
    /\ session_count (all_time (run three_day_history)) = 1.
Proof.
    split; [exact run_latest_row|].
    split; [intros st inv d; apply (record_bucket_totals daily inv_date); reflexivity|].
    split; [intros st inv m; apply (record_bucket_totals monthly inv_month); reflexivity|].
    split; [intros h; apply run_from_cost_inv; reflexivity|].
    split; [exact run_session_count|].
    split.
    { intros st inv. simpl.
      destruct (session_rows st !! session_id inv) eqn:E; simpl; lia. }
    split; [apply Qc_decomp; vm_compute; reflexivity|].
    split; [apply Qc_decomp; vm_compute; reflexivity|].
    split; vm_compute; reflexivity.
Qed.

Lemma stats_record_invariants_witness :
    Forall (fun i => session_id i <> "S") [inv_at "T" 3 0 0 3 "2025-01-02" "2025-01"]
    /\ exists row,
      session_rows (run (same_day_history ++ inv_at "S" 8 120 25 2 "2025-01-02" "2025-01"
                           :: [inv_at "T" 3 0 0 3 "2025-01-02" "2025-01"])) !! "S" = Some row
      /\ cost row = Q2Qc 8 /\ lines_added row = 120%Z /\ lines_removed row = 25%Z.
Proof.
    assert (Hf : Forall (fun i => session_id i <> "S") [inv_at "T" 3 0 0 3 "2025-01-02" "2025-01"])
      by (constructor; [simpl; discriminate | constructor]).
    split; [exact Hf|].
    exact (proj1 stats_record_invariants same_day_history
             (inv_at "S" 8 120 25 2 "2025-01-02" "2025-01") [inv_at "T" 3 0 0 3 "2025-01-02" "2025-01"] Hf).
Defined.

End StatsFacts.

Module PathsFacts.
Import Paths.

Lemma prefix_refl s : String.prefix s s = true.
Proof.
  induction s as [|c s IH]; simpl; [reflexivity|].
  destruct (ascii_dec c c) as [_|n]; [exact IH|congruence].
Qed.

Lemma prefix_split h p :
  String.prefix h p = true -> p = h +:+ str_drop (String.length h) p.
Proof.
  revert p; induction h as [|c h IH]; intros p Hp; [destruct p; reflexivity|].
  destruct p as [|d p]; simpl in Hp; [discriminate|].
  destruct (ascii_dec c d) as [->|]; [|discriminate].
  exact (f_equal (String d) (IH p Hp)).
Qed.

Lemma prefix_app h r : String.prefix h (h +:+ r) = true.
Proof.
  induction h as [|c h IH]; simpl; [destruct r; reflexivity|].
  destruct (ascii_dec c c) as [_|n]; [exact IH|congruence].
Qed.

Lemma str_drop_app h r : str_drop (String.length h) (h +:+ r) = r.
Proof. induction h as [|c h IH]; simpl; [destruct r; reflexivity | exact IH]. Qed.

Lemma str_app_nil s : s +:+ "" = s.
Proof. induction s as [|c s IH]; [reflexivity|]. exact (f_equal (String c) IH). Qed.

Lemma replacen1_prefix pat to s :
  String.prefix pat s = true -> replacen1 pat to s = to +:+ str_drop (String.length pat) s.
Proof. intros H. destruct s; cbn [replacen1]; rewrite H; reflexivity. Qed.

(** [shorten_path]: an empty path stays empty; without [HOME] the path is
    unchanged; a non-empty path that starts with [HOME] becomes ["~"]
    followed by the rest of the path (exactly ["~"] for [HOME] itself);
    a path that does not start with [HOME] is unchanged. *)
Theorem shorten_path_spec :
  (forall home, shorten_path home "" = "")
  /\ (forall path, shorten_path None path = path)
  /\ (forall home path, path <> "" -> String.prefix home path = true ->
        exists rest, path = home +:+ rest /\ shorten_path (Some home) path = "~" +:+ rest)
  /\ (forall home path, String.prefix home path = false ->
        shorten_path (Some home) path = path).
Proof.
  split; [intros [h|]; reflexivity|].
  split; [intros path; unfold shorten_path; destruct (String.eqb_spec path ""); congruence|].
  split.
  - intros home path Hne Hp. unfold shorten_path.
    destruct (String.eqb_spec path "") as [|_]; [congruence|].
    destruct (String.eqb_spec path home) as [->|Hneq].
    + exists "". split; [symmetry; apply str_app_nil | reflexivity].
    + rewrite Hp, replacen1_prefix by exact Hp.
      exists (str_drop (String.length home) path). split; [apply prefix_split, Hp | reflexivity].
  - intros home path Hp. unfold shorten_path.
    destruct (String.eqb_spec path "") as [->|_]; [reflexivity|].
    destruct (String.eqb_spec path home) as [->|_]; [rewrite prefix_refl in Hp; discriminate|].
    rewrite Hp. reflexivity.
Qed.

Lemma shorten_path_spec_witness :
  "/home/u/proj" <> "" /\ String.prefix "/home/u" "/home/u/proj" = true
  /\ exists rest, "/home/u/proj" = "/home/u" +:+ rest
     /\ shorten_path (Some "/home/u") "/home/u/proj" = "~" +:+ rest.
Proof.
  assert (H1 : "/home/u/proj" <> "") by discriminate.
  assert (H2 : String.prefix "/home/u" "/home/u/proj" = true) by reflexivity.
  split; [exact H1|]. split; [exact H2|].
  exact (proj1 (proj2 (proj2 shorten_path_spec)) "/home/u" "/home/u/proj" H1 H2).
Defined.

(** Candidate configuration files, in the order they are tried. *)
Definition config_candidates (env : string -> option string) (config_dir : string)
    (home_dir : option string) : list string :=
  option_list (env "STATUSLINE_CONFIG_PATH") ++ option_list (env "STATUSLINE_CONFIG")
  ++ [join config_dir "config.toml"]
  ++ option_list (option_map (fun h => join h ".claudia-statusline.toml") home_dir).

Lemma head_filter_cons (pex : string -> bool) x l r :
  r = head (filter (fun p => pex p = true) l) ->
  (if pex x then Some x else r) = head (filter (fun p => pex p = true) (x :: l)).
Proof.
  intros ->. rewrite filter_cons.
  destruct (pex x); [rewrite decide_True | rewrite decide_False]; try reflexivity; discriminate.
Qed.

Lemma head_filter_opt (pex : string -> bool) o l r :
  r = head (filter (fun p => pex p = true) l) ->
  match (match o with Some p => if pex p then Some p else None | None => None end) with
  | Some p => Some p
  | None => r
  end = head (filter (fun p => pex p = true) (option_list o ++ l)).
Proof.
  intros ->. destruct o as [p|]; [|reflexivity]. simpl. rewrite filter_cons.
  destruct (pex p); [rewrite decide_True | rewrite decide_False]; try reflexivity; discriminate.
Qed.

(** [Config::find_config_file] returns the first existing path among, in
    order: [$STATUSLINE_CONFIG_PATH], [$STATUSLINE_CONFIG],
    [<config dir>/config.toml] and [<home>/.claudia-statusline.toml]
    (unset variables and a missing home are skipped); none if no candidate
    exists. *)
Theorem find_config_file_first_existing env pex config_dir home_dir :
  find_config_file env pex config_dir home_dir
  = head (filter (fun p => pex p = true) (config_candidates env config_dir home_dir)).
Proof.
  unfold find_config_file, config_candidates.
  apply head_filter_opt, head_filter_opt.
  change ([?x] ++ ?l) with (x :: l). apply head_filter_cons.
  destruct home_dir as [h|]; [|reflexivity].
  change (option_list (option_map _ (Some h))) with [join h ".claudia-statusline.toml"].
  apply head_filter_cons. reflexivity.
Qed.

Lemma last_byte_none s : last_byte s = None -> s = "".
Proof.
  induction s as [|c s IH]; [reflexivity|]. simpl.
  destruct s as [|c' s']; [discriminate|]. intros H. specialize (IH H). discriminate.
Qed.

(** [get_data_dir] and [get_config_dir]: an [XDG_*_HOME] that is set (even
    to the empty string) wins and both give [<it>/claudia-statusline] (no
    doubled ['/'] when it ends in one, the bare name when it is empty); with
    nothing set they fall back to [./.local/share/claudia-statusline] and
    [./.config/claudia-statusline]. *)
Theorem app_dirs_spec :
  (forall x d h, get_data_dir (Some x) d h = get_config_dir (Some x) d h)
  /\ (forall d h, get_data_dir (Some "") d h = "claudia-statusline")
  /\ (forall x d h, last_byte x = Some "/"%char ->
        get_data_dir (Some x) d h = x +:+ "claudia-statusline")
  /\ (forall x d h, x <> "" -> last_byte x <> Some "/"%char ->
        get_data_dir (Some x) d h = x +:+ "/claudia-statusline")
  /\ get_data_dir None None None = "./.local/share/claudia-statusline"
  /\ get_config_dir None None None = "./.config/claudia-statusline".
Proof.
  split; [reflexivity|]. split; [reflexivity|].
  split.
  { intros x d h Hl. unfold get_data_dir, join. rewrite Hl. reflexivity. }
  split; [|split; reflexivity].
  intros x d h Hne Hl. unfold get_data_dir, join.
  destruct (last_byte x) as [c|] eqn:E.
  - destruct (Ascii.eqb_spec c "/"%char) as [->|]; [congruence|reflexivity].
  - apply last_byte_none in E. congruence.
Qed.

Lemma app_dirs_spec_witness :
  last_byte "/tmp/xdg/" = Some "/"%char
  /\ get_data_dir (Some "/tmp/xdg/") None None = "/tmp/xdg/claudia-statusline"
  /\ ("/tmp/xdg" <> "" /\ last_byte "/tmp/xdg" <> Some "/"%char)
  /\ get_config_dir (Some "/tmp/xdg") None None = "/tmp/xdg/claudia-statusline".
Proof.
  assert (H1 : last_byte "/tmp/xdg/" = Some "/"%char) by reflexivity.
  assert (H2 : "/tmp/xdg" <> "") by discriminate.
  assert (H3 : last_byte "/tmp/xdg" <> Some "/"%char) by discriminate.
  split; [exact H1|]. split; [exact (proj1 (proj2 (proj2 app_dirs_spec)) _ None None H1)|].
  split; [split; [exact H2 | exact H3]|].
  rewrite <- (proj1 app_dirs_spec).
  exact (proj1 (proj2 (proj2 (proj2 app_dirs_spec))) _ None None H2 H3).
Defined.

End PathsFacts.

Module DisplayFacts.
Import Display.

(** [format_duration]: under a minute it prints ["<s>s"]; under an hour
    ["<m>m"] with the minutes rounded down (1 to 59); otherwise
    ["<h>h<m>m"] with whole hours and the remaining whole minutes (0 to 59). *)
Theorem format_duration_spec (seconds : N) :
  (seconds < 60 /\ format_duration seconds = show_u seconds +:+ "s")
  \/ (60 <= seconds < 3600 /\ exists m, 1 <= m <= 59 /\ m * 60 <= seconds < m * 60 + 60
        /\ format_duration seconds = show_u m +:+ "m")
  \/ (3600 <= seconds /\ exists h m, 1 <= h /\ m <= 59
        /\ h * 3600 + m * 60 <= seconds < h * 3600 + m * 60 + 60
        /\ format_duration seconds = show_u h +:+ "h" +:+ show_u m +:+ "m").
Proof.
  unfold format_duration.
  destruct (N.ltb_spec seconds 60); [left; split; [lia | reflexivity]|].
  destruct (N.ltb_spec seconds 3600).
  - right; left. split; [lia|]. exists (seconds / 60).
    pose proof (N.div_mod seconds 60 ltac:(lia)).
    pose proof (N.mod_lt seconds 60 ltac:(lia)).
    set (q := seconds / 60) in *; set (r := seconds mod 60) in *; clearbody q r. split; [|split; [|reflexivity]]; lia.
  - right; right. split; [lia|]. exists (seconds / 3600), ((seconds mod 3600) / 60).
    pose proof (N.div_mod seconds 3600 ltac:(lia)).
    pose proof (N.mod_lt seconds 3600 ltac:(lia)).
    pose proof (N.div_mod (seconds mod 3600) 60 ltac:(lia)).
    pose proof (N.mod_lt (seconds mod 3600) 60 ltac:(lia)).
    set (m := (seconds mod 3600) / 60) in *. set (r2 := (seconds mod 3600) mod 60) in *.
    set (h := seconds / 3600) in *. set (r := seconds mod 3600) in *.
    clearbody m r2 h r.
    split; [lia|]. split; [lia|]. split; [lia | reflexivity].
Qed.

Lemma str_length_app s t : String.length (s +:+ t) = (String.length s + String.length t)%nat.
Proof. induction s as [|c s IH]; simpl; [reflexivity | rewrite IH; reflexivity]. Qed.

Lemma str_repeat_length c n : String.length (str_repeat (String c "") n) = n.
Proof.
  induction n as [|n IH]; [reflexivity|].
  change (str_repeat (String c "") (S n)) with (String c (str_repeat (String c "") n)).
  cbn [String.length]. rewrite IH. reflexivity.
Qed.

(** The context bar always has exactly [bar_width] characters: when the
    filled count is below the width it is that many ['='], one ['>'] and
    ['-'] up to the width; otherwise (a filled count at or over the width is
    clamped) it is all ['=']. *)
Theorem progress_bar_shape (filled bar_width : N) :
  String.length (progress_bar filled bar_width) = N.to_nat bar_width
  /\ (filled < bar_width ->
      progress_bar filled bar_width
      = str_repeat "=" (N.to_nat filled) +:+ ">"
        +:+ str_repeat "-" (N.to_nat (bar_width - filled - 1)))
  /\ (bar_width <= filled -> progress_bar filled bar_width = str_repeat "=" (N.to_nat bar_width)).
Proof.
  unfold progress_bar; cbv zeta. split; [|split].
  - rewrite !str_length_app, !str_repeat_length.
    destruct (N.ltb_spec (N.min filled bar_width) bar_width); simpl; lia.
  - intros H. rewrite N.min_l by lia.
    destruct (N.ltb_spec filled bar_width); [reflexivity | lia].
  - intros H. rewrite N.min_r by lia.
    destruct (N.ltb_spec bar_width bar_width); [lia|].
    rewrite N.sub_diag. simpl. apply PathsFacts.str_app_nil.
Qed.

Lemma progress_bar_shape_witness :
  (3 < 10 /\ progress_bar 3 10 = "===>------")
  /\ (10 <= 12 /\ progress_bar 12 10 = "==========").
Proof.
  assert (H1 : 3 < 10) by lia. assert (H2 : 10 <= 12) by lia.
  split; split; [exact H1| |exact H2|].
  - rewrite (proj1 (proj2 (progress_bar_shape 3 10)) H1). reflexivity.
  - rewrite (proj2 (proj2 (progress_bar_shape 12 10)) H2). reflexivity.
Defined.

(** Severity of the colour [context_color] picks (0 normal .. 3 critical). *)
Definition context_level (config : ColorThresholds) (p : F64.f64) : nat :=
  if gt p (context_critical_threshold config) then 3
  else if gt p (context_warning_threshold config) then 2
  else if gt p (context_caution_threshold config) then 1
  else 0.

Definition context_level_color (colors : ThemeColors) (n : nat) : string :=
  match n with
  | 3 => context_critical colors
  | 2 => context_warning colors
  | 1 => context_caution colors
  | _ => context_normal colors
  end%nat.

(** Severity of the colour [cost_color] picks (0 low .. 2 high). *)
Definition cost_level (config : ColorThresholds) (c : Q) : nat :=
  if Qle_bool (medium_threshold config) c then 2
  else if Qle_bool (low_threshold config) c then 1
  else 0.

Definition cost_level_color (colors : ThemeColors) (n : nat) : string :=
  match n with
  | 2 => cost_high colors
  | 1 => cost_medium colors
  | _ => cost_low colors
  end%nat.

Lemma qlt_mono t p q : (p <= q)%Q -> F64.qlt t p = true -> F64.qlt t q = true.
Proof.
  unfold F64.qlt. intros Hpq H. apply negb_true_iff in H. apply negb_true_iff.
  destruct (Qle_bool q t) eqn:E; [|reflexivity].
  apply Qle_bool_iff in E. assert (Hpt : (p <= t)%Q) by (eapply Qle_trans; eauto).
  apply Qle_bool_iff in Hpt. congruence.
Qed.

Lemma qle_bool_mono t p q : (p <= q)%Q -> Qle_bool t p = true -> Qle_bool t q = true.
Proof.
  intros Hpq H. apply Qle_bool_iff in H. apply Qle_bool_iff. eapply Qle_trans; eauto.
Qed.

Lemma rank3_mono (a1 a2 a3 b1 b2 b3 : bool) :
  (a1 = true -> b1 = true) -> (a2 = true -> b2 = true) -> (a3 = true -> b3 = true) ->
  ((if a1 then 3 else if a2 then 2 else if a3 then 1 else 0)
   <= (if b1 then 3 else if b2 then 2 else if b3 then 1 else 0))%nat.
Proof.
  intros H1 H2 H3.
  destruct a1, a2, a3, b1, b2, b3; simpl;
    first [lia | discriminate (H1 eq_refl) | discriminate (H2 eq_refl)
           | discriminate (H3 eq_refl)].
Qed.

Lemma rank2_mono (a1 a2 b1 b2 : bool) :
  (a1 = true -> b1 = true) -> (a2 = true -> b2 = true) ->
  ((if a1 then 2 else if a2 then 1 else 0) <= (if b1 then 2 else if b2 then 1 else 0))%nat.
Proof.
  intros H1 H2.
  destruct a1, a2, b1, b2; simpl;
    first [lia | discriminate (H1 eq_refl) | discriminate (H2 eq_refl)].
Qed.

(** [Colors::context_color]: the empty string when colours are disabled;
    otherwise the resolved theme colour of a severity level (critical,
    warning, caution, normal) that never decreases as the percentage grows,
    whatever the thresholds; an infinite percentage is at least as severe as
    any finite one and a NaN percentage is normal. *)
Theorem context_color_levels (resolve_color : string -> string) (colors : ThemeColors)
    (config : ColorThresholds) :
  (forall p, context_color false resolve_color colors config p = "")
  /\ (forall p, context_color true resolve_color colors config p
                = resolve_color (context_level_color colors (context_level config p)))
  /\ (forall p q, (p <= q)%Q ->
        (context_level config (F64.Fin p) <= context_level config (F64.Fin q))%nat)
  /\ (forall p, (context_level config (F64.Fin p) <= context_level config F64.PosInf)%nat)
  /\ context_level config F64.NaN = 0%nat.
Proof.
  split; [reflexivity|]. split.
  { intros p. unfold context_color, context_level. simpl.
    repeat case_match; reflexivity. }
  split; [|split; [|reflexivity]].
  - intros p q Hpq. unfold context_level, gt.
    apply rank3_mono; apply qlt_mono, Hpq.
  - intros p. unfold context_level. simpl.
    repeat case_match; lia.
Qed.

(** [Colors::cost_color]: the empty string when colours are disabled;
    otherwise the resolved theme colour of a level (high, medium, low) that
    never decreases as the cost grows, whatever the thresholds. *)
Theorem cost_color_levels (resolve_color : string -> string) (colors : ThemeColors)
    (config : ColorThresholds) :
  (forall c, cost_color false resolve_color colors config c = "")
  /\ (forall c, cost_color true resolve_color colors config c
                = resolve_color (cost_level_color colors (cost_level config c)))
  /\ (forall c d, (c <= d)%Q -> (cost_level config c <= cost_level config d)%nat).
Proof.
  split; [reflexivity|]. split.
  { intros c. unfold cost_color, cost_level. simpl.
    repeat case_match; reflexivity. }
  intros c d Hcd. unfold cost_level. apply rank2_mono; apply qle_bool_mono, Hcd.
Qed.

(** Thresholds of [DisplayConfig::default] and [CostConfig::default]. *)
Definition default_thresholds : ColorThresholds :=
  {| context_caution_threshold := 50; context_warning_threshold := 70;
     context_critical_threshold := 90; low_threshold := 5; medium_threshold := 20 |}.

Definition sample_colors : ThemeColors :=
  {| context_normal := "green"; context_caution := "cyan"; context_warning := "yellow";
     context_critical := "red"; cost_low := "green"; cost_medium := "yellow";
     cost_high := "red" |}.

Lemma context_color_levels_witness :
  (60 <= 95)%Q
  /\ (context_level default_thresholds (F64.Fin 60) <= context_level default_thresholds (F64.Fin 95))%nat.
Proof.
  assert (H1 : (60 <= 95)%Q) by (vm_compute; discriminate).
  split; [exact H1|].
  exact (proj1 (proj2 (proj2 (context_color_levels (fun s => s) sample_colors
           default_thresholds))) 60%Q 95%Q H1).
Defined.

Lemma cost_color_levels_witness :
  (4 <= 25)%Q
  /\ (cost_level default_thresholds 4 <= cost_level default_thresholds 25)%nat.
Proof.
  assert (H2 : (4 <= 25)%Q) by (vm_compute; discriminate).
  split; [exact H2|].
  exact (proj2 (proj2 (cost_color_levels (fun s => s) sample_colors
           default_thresholds)) 4%Q 25%Q H2).
Defined.

End DisplayFacts.

Module WindowFacts.
Import Fs Models Transcript.

(** The last [n] elements of a list (all of them if it is shorter). *)
Definition lastn {A} (n : nat) (l : list A) : list A := drop (length l - n) l.

Lemma lastn_lastn {A} n (x y : list A) : lastn n (lastn n x ++ y) = lastn n (x ++ y).
Proof.
  unfold lastn. rewrite !length_app, length_drop.
  rewrite <- drop_app_le by lia. rewrite drop_drop. f_equal. lia.
Qed.

Lemma push_line_lastn b buf line :
  b <> 0 -> (length buf <= N.to_nat b)%nat ->
  push_line b buf line = lastn (N.to_nat b) (buf ++ [line]).
Proof.
  intros Hb Hl. unfold push_line, lastn. rewrite length_app. simpl.
  destruct (decide (N.of_nat (length buf) = b)) as [E|E].
  - replace (length buf + 1 - N.to_nat b)%nat with 1%nat by lia.
    destruct buf as [|x buf]; simpl in *; [lia | reflexivity].
  - replace (length buf + 1 - N.to_nat b)%nat with 0%nat by lia. reflexivity.
Qed.

Lemma fold_push_lastn b lines buf :
  b <> 0 -> (length buf <= N.to_nat b)%nat ->
  fold_left (push_line b) lines buf = lastn (N.to_nat b) (buf ++ lines).
Proof.
  revert buf; induction lines as [|line lines IH]; intros buf Hb Hl; simpl.
  - rewrite app_nil_r. unfold lastn. replace (length buf - N.to_nat b)%nat with 0%nat by lia.
    reflexivity.
  - rewrite IH; [| exact Hb |].
    + rewrite push_line_lastn by assumption. rewrite lastn_lastn, <- app_assoc. reflexivity.
    + rewrite push_line_lastn by assumption. unfold lastn. rewrite length_drop. lia.
Qed.

Lemma fold_push_zero lines buf :
  buf <> [] -> fold_left (push_line 0) lines buf = buf ++ lines.
Proof.
  revert buf; induction lines as [|line lines IH]; intros buf Hne; simpl.
  - rewrite app_nil_r. reflexivity.
  - unfold push_line at 2.
    destruct (decide (N.of_nat (length buf) = 0)) as [E|E].
    + destruct buf; [congruence | simpl in E; lia].
    + rewrite IH by (destruct buf; simpl; congruence). rewrite <- app_assoc. reflexivity.
Qed.

Lemma rev_take_rev {A} n (l : list A) : rev (take n (rev l)) = lastn n l.
Proof.
  unfold lastn. rewrite <- (take_drop (length l - n) l) at 1.
  rewrite rev_app_distr.
  destruct (decide (n <= length l)%nat).
  - rewrite take_app_length'; [apply rev_involutive|].
    rewrite length_rev, length_drop. lia.
  - replace (length l - n)%nat with 0%nat by lia. simpl.
    rewrite drop_0, app_nil_r, take_ge by (rewrite length_rev; lia). apply rev_involutive.
Qed.

(** Which lines the token extraction of [get_token_breakdown_from_transcript]
    looks at, when [buffer_lines * 2048] does not overflow a [usize]: the
    last [buffer_lines] lines of the file when it is under 1 MiB (every
    line when [buffer_lines] is 0), otherwise the last [buffer_lines]
    complete lines of the tail read from [start_pos]. *)
Theorem trailing_window_spec (buffer_lines : N) (fs : FileSystem) (p : string) (sz : N) :
  buffer_lines * 2048 < 2 ^ 64 ->
  trailing_window buffer_lines fs p sz
  = if sz <? 1024 * 1024 then
      (if decide (buffer_lines = 0) then lines_from fs p 0
       else lastn (N.to_nat buffer_lines) (lines_from fs p 0))
    else
      let start_pos := sz - N.max (buffer_lines * 2048) (200 * 1024) in
      lastn (N.to_nat buffer_lines)
        (drop (if 0 <? start_pos then 1 else 0) (lines_from fs p start_pos)).
Proof.
  intros Hw. unfold trailing_window. rewrite (N.mod_small _ _ Hw).
  destruct (sz <? 1024 * 1024).
  - destruct (decide (buffer_lines = 0)) as [->|Hb].
    + destruct (lines_from fs p 0) as [|l ls]; [reflexivity|]. simpl.
      unfold push_line at 2. simpl. apply fold_push_zero. discriminate.
    + rewrite fold_push_lastn by (simpl; lia). reflexivity.
  - cbv zeta. apply rev_take_rev.
Qed.

Definition window_fs : FileSystem :=
  {| canonicalize := fun p => Some p;
     is_file := fun _ => true;
     open_ok := fun _ => true;
     file_size := fun _ => Some 2097152;
     lines_from := fun _ _ => ["partial"; "a"; "b"; "c"];
     modified_elapsed := fun _ => None |}.

Lemma trailing_window_spec_witness :
  2 * 2048 < 2 ^ 64
  /\ trailing_window 2 window_fs "/tmp/t.jsonl" 2097152 = ["b"; "c"].
Proof.
  assert (H : 2 * 2048 < 2 ^ 64) by (vm_compute; reflexivity).
  split; [exact H|].
  rewrite (trailing_window_spec 2 window_fs "/tmp/t.jsonl" 2097152 H). reflexivity.
Defined.

End WindowFacts.

Module DurationFacts.
Import Fs Models Transcript.

Section Duration.
Variable parse_entry : string -> option TranscriptEntry.
Variable parse_iso8601_to_unix : string -> option N.

Definition entry_time (e : TranscriptEntry) : option N :=
  parse_iso8601_to_unix (timestamp e).

(** Timestamp of the very first line, if that line is an entry. *)
Definition first_line_time (lines : list string) : option N :=
  match lines with
  | l :: _ => match parse_entry l with Some e => entry_time e | None => None end
  | [] => None
  end.

(** Timestamp of the last line that parses as an entry. *)
Definition last_entry_time (lines : list string) : option N :=
  match last (omap parse_entry lines) with Some e => entry_time e | None => None end.

Lemma last_omap_cons l r :
  last (omap parse_entry (l :: r))
  = match last (omap parse_entry r) with
    | Some e => Some e
    | None => parse_entry l
    end.
Proof.
  change (omap parse_entry (l :: r))
    with (match parse_entry l with
          | Some y => y :: omap parse_entry r
          | None => omap parse_entry r
          end).
  destruct (parse_entry l) as [e|].
  - rewrite last_cons. reflexivity.
  - destruct (last (omap parse_entry r)); reflexivity.
Qed.

Lemma fold_duration_seen x ft lt lines :
  fold_left (duration_step parse_entry parse_iso8601_to_unix) lines (Some x, ft, lt)
  = (Some x, ft, match last (omap parse_entry lines) with
                 | Some e => entry_time e
                 | None => lt
                 end).
Proof.
  revert lt; induction lines as [|l r IH]; intros lt; [reflexivity|].
  simpl fold_left.
  change (duration_step parse_entry parse_iso8601_to_unix (Some x, ft, lt) l)
    with (Some x, ft, match parse_entry l with Some e => entry_time e | None => lt end).
  rewrite IH, last_omap_cons.
  destruct (last (omap parse_entry r)); [reflexivity|].
  destruct (parse_entry l); reflexivity.
Qed.

End Duration.

(** [parse_duration] of a valid, openable transcript reads the file once
    and returns [last - first] where [first] is the timestamp of the first
    line (nothing if that line is not an entry) and [last] that of the last
    line that parses as an entry; it gives nothing when either is missing or
    [last <= first]. *)
Theorem parse_duration_spec parse_entry parse_iso8601_to_unix fs path safe_path :
  validate_transcript_file fs path = Ok safe_path -> open_ok fs safe_path = true ->
  parse_duration parse_entry parse_iso8601_to_unix fs path
  = (let lines := lines_from fs safe_path 0 in
     match first_line_time parse_entry parse_iso8601_to_unix lines,
           last_entry_time parse_entry parse_iso8601_to_unix lines with
     | Some first, Some last => if first <? last then Some (last - first) else None
     | _, _ => None
     end, [safe_path]).
Proof.
  intros Hv Ho. unfold parse_duration. rewrite Hv. simpl. rewrite Ho. simpl.
  destruct (lines_from fs safe_path 0) as [|l r]; [reflexivity|].
  simpl fold_left.
  change (duration_step parse_entry parse_iso8601_to_unix (None, None, None) l)
    with (Some l,
          match parse_entry l with Some e => parse_iso8601_to_unix (timestamp e) | None => None end,
          match parse_entry l with Some e => parse_iso8601_to_unix (timestamp e) | None => None end).
  rewrite fold_duration_seen.
  unfold first_line_time, last_entry_time, entry_time. rewrite last_omap_cons.
  destruct (parse_entry l) as [e|]; destruct (last (omap parse_entry r)); reflexivity.
Qed.

Definition entry_at (ts : string) : TranscriptEntry :=
  {| message := {| role := "user"; usage := None |}; timestamp := ts |}.

Definition duration_parse (line : string) : option TranscriptEntry :=
  if String.eqb line "a" then Some (entry_at "t1")
  else if String.eqb line "b" then Some (entry_at "t2")
  else None.

Definition duration_iso (ts : string) : option N :=
  if String.eqb ts "t1" then Some 100 else if String.eqb ts "t2" then Some 400 else None.

Definition duration_fs : FileSystem :=
  {| canonicalize := fun p => Some p;
     is_file := fun _ => true;
     open_ok := fun _ => true;
     file_size := fun _ => Some 100;
     lines_from := fun _ _ => ["a"; "b"; "junk"];
     modified_elapsed := fun _ => Some 1 |}.

Lemma parse_duration_spec_witness :
  validate_transcript_file duration_fs "/tmp/s.jsonl" = Ok "/tmp/s.jsonl"
  /\ open_ok duration_fs "/tmp/s.jsonl" = true
  /\ parse_duration duration_parse duration_iso duration_fs "/tmp/s.jsonl"
     = (Some 300, ["/tmp/s.jsonl"]).
Proof.
  assert (H1 : validate_transcript_file duration_fs "/tmp/s.jsonl" = Ok "/tmp/s.jsonl")
    by reflexivity.
  assert (H2 : open_ok duration_fs "/tmp/s.jsonl" = true) by reflexivity.
  split; [exact H1|]. split; [exact H2|].
  rewrite (parse_duration_spec duration_parse duration_iso duration_fs _ _ H1 H2).
  reflexivity.
Defined.

End DurationFacts.

Module AcceptFacts.
Import Fs Models Transcript.

Lemma split_on_cons c s : exists w ws, Str.split_on c s = w :: ws.
Proof.
  induction s as [|x r IH]; simpl; [eauto|].
  destruct IH as (w & ws & ->). destruct (Ascii.eqb x c); eauto.
Qed.

Lemma split_on_app c a b :
  Str.split_on c (a +:+ String c b) = Str.split_on c a ++ Str.split_on c b.
Proof.
  induction a as [|x a IH].
  - simpl. destruct (split_on_cons c b) as (w & ws & E). rewrite E, Ascii.eqb_refl.
    reflexivity.
  - change (String x a +:+ String c b) with (String x (a +:+ String c b)). simpl.
    rewrite IH. destruct (split_on_cons c a) as (w & ws & E). rewrite E. simpl.
    destruct (Ascii.eqb x c); reflexivity.
Qed.

Lemma split_on_none c s : Str.contains_char c s = false -> Str.split_on c s = [s].
Proof.
  induction s as [|x r IH]; simpl; [reflexivity|].
  intros H. apply orb_false_iff in H as [Hx Hr]. rewrite (IH Hr), Hx. reflexivity.
Qed.

Lemma split_on_single c s w : Str.split_on c s = [w] -> s = w.
Proof.
  revert w; induction s as [|x r IH]; simpl; intros w H; [congruence|].
  destruct (split_on_cons c r) as (w' & ws & E). rewrite E in H.
  destruct (Ascii.eqb x c); [discriminate|].
  inversion H; subst. rewrite (IH w' E). reflexivity.
Qed.

Lemma eq_ignore_length a b :
  Str.eq_ignore_ascii_case a b = true -> String.length a = String.length b.
Proof.
  revert b; induction a as [|x a IH]; intros [|y b]; simpl; try discriminate; [reflexivity|].
  intros H. apply andb_prop in H as [_ H]. rewrite (IH b H). reflexivity.
Qed.

Lemma file_name_named d n :
  Str.contains_char "/"%char n = false -> n <> "" ->
  file_name (d +:+ String "/"%char n) = if decide (n = "..") then None else Some n.
Proof.
  intros Hn Hne. unfold file_name. rewrite split_on_app, (split_on_none _ n Hn), last_snoc.
  destruct (decide (n = "")); [congruence|]. reflexivity.
Qed.

(** A transcript whose canonical path is [d/base.ext], with no ['/'] in
    [base] and [ext] and no ['.'] in [ext], passes validation exactly when
    [base] is not empty and [ext] is [jsonl] in any letter case: a file
    named [.jsonl] is refused, [a.b.JsonL] is accepted. *)
Theorem validate_named_transcript fs path d base ext :
  Str.contains_char NUL path = false ->
  canonicalize fs path = Some (d +:+ "/" +:+ base +:+ "." +:+ ext) ->
  is_file fs (d +:+ "/" +:+ base +:+ "." +:+ ext) = true ->
  Str.contains_char "/"%char base = false ->
  Str.contains_char "/"%char ext = false -> Str.contains_char "."%char ext = false ->
  ok (validate_transcript_file fs path)
  = if negb (String.eqb base "") && Str.eq_ignore_ascii_case ext "jsonl"
    then Some (d +:+ "/" +:+ base +:+ "." +:+ ext) else None.
Proof.
  intros Hnul Hc Hf Hb Hs He.
  assert (Hn : Str.contains_char "/"%char (base +:+ "." +:+ ext) = false).
  { clear -Hb Hs. induction base as [|x r IH]; simpl in *; [exact Hs|].
    apply orb_false_iff in Hb as [Hx Hr]. rewrite Hx, (IH Hr). reflexivity. }
  assert (Hne : base +:+ "." +:+ ext <> "") by (destruct base; discriminate).
  unfold validate_transcript_file, validate_path_security. rewrite Hnul, Hc. simpl negb.
  rewrite Hf. simpl negb. cbv iota.
  unfold extension.
  change (d +:+ "/" +:+ base +:+ "." +:+ ext)
    with (d +:+ String "/"%char (base +:+ "." +:+ ext)).
  rewrite (file_name_named d _ Hn Hne).
  destruct (decide (base +:+ "." +:+ ext = "..")) as [Hdd|Hdd].
  - destruct (Str.eq_ignore_ascii_case ext "jsonl") eqn:Ej.
    + apply eq_ignore_length in Ej. apply (f_equal String.length) in Hdd.
      rewrite DisplayFacts.str_length_app in Hdd. simpl in Ej, Hdd. change ("" +:+ ext) with ext in Hdd. lia.
    + rewrite andb_false_r. reflexivity.
  - change (base +:+ "." +:+ ext) with (base +:+ String "."%char ext).
    rewrite split_on_app, (split_on_none _ ext He).
    destruct (split_on_cons "."%char base) as (w & ws & E). rewrite E.
    destruct ws as [|w2 ws].
    + apply split_on_single in E. subst w.
      destruct base as [|x r]; simpl.
      * reflexivity.
      * destruct (Str.eq_ignore_ascii_case ext "jsonl"); reflexivity.
    + assert (Hbase : base <> "") by (intros ->; discriminate).
      destruct (String.eqb_spec base "") as [|_]; [congruence|]. simpl negb. cbv iota.
      change ((w :: w2 :: ws) ++ [ext]) with (w :: w2 :: (ws ++ [ext])).
      assert (Hl : last (w :: w2 :: (ws ++ [ext])) = Some ext)
        by (rewrite !app_comm_cons; apply last_snoc).
      destruct (ws ++ [ext]) as [|w3 rest] eqn:Er; [destruct ws; discriminate|].
      destruct w as [|a w]; rewrite Hl;
        destruct (Str.eq_ignore_ascii_case ext "jsonl"); reflexivity.
Qed.

Definition accept_fs : FileSystem :=
  {| canonicalize := fun p => Some p;
     is_file := fun _ => true;
     open_ok := fun _ => true;
     file_size := fun _ => Some 0;
     lines_from := fun _ _ => [];
     modified_elapsed := fun _ => None |}.

Lemma validate_named_transcript_witness :
  ok (validate_transcript_file accept_fs "/tmp/a.b.JsonL") = Some "/tmp/a.b.JsonL".
Proof.
  exact (validate_named_transcript accept_fs "/tmp/a.b.JsonL" "/tmp" "a.b" "JsonL"
           eq_refl eq_refl eq_refl eq_refl eq_refl eq_refl).
Defined.

End AcceptFacts.

Module UsageMonoFacts.
Import Fs Config Transcript Compaction ContextWindow F64 Usage.

Lemma div_N_mono a a' b :
  a <= a' ->
  (exists q q', div_N a b = Fin q /\ div_N a' b = Fin q' /\ (q <= q')%Q)
  \/ ((div_N a b = NaN \/ div_N a b = PosInf) /\ div_N a' b = PosInf)
  \/ (div_N a b = NaN /\ div_N a' b = NaN).
Proof.
  intros Ha. unfold div_N.
  destruct (decide (b = 0)) as [->|Hb].
  - destruct (decide (a = 0)), (decide (a' = 0)); subst; try lia; auto.
  - left. do 2 eexists. split; [reflexivity|]. split; [reflexivity|].
    apply Qmult_le_compat_r.
    + unfold Qle; simpl. lia.
    + apply Qinv_le_0_compat. unfold Qle; simpl. lia.
Qed.

Lemma raw_percentage_mono config t t' fw ww :
  t <= t' ->
  (exists q q', raw_percentage config t fw ww = Fin q
                /\ raw_percentage config t' fw ww = Fin q' /\ (q <= q')%Q)
  \/ ((raw_percentage config t fw ww = NaN \/ raw_percentage config t fw ww = PosInf)
      /\ raw_percentage config t' fw ww = PosInf)
  \/ (raw_percentage config t fw ww = NaN /\ raw_percentage config t' fw ww = NaN).
Proof.
  intros Ht.
  assert (E : forall t0, raw_percentage config t0 fw ww
    = mul (div_N t0 (if String.eqb (percentage_mode config) "working" then ww else fw)) 100)
    by (intros t0; unfold raw_percentage; destruct (String.eqb _ _); reflexivity).
  rewrite !E.
  destruct (div_N_mono t t' (if String.eqb (percentage_mode config) "working" then ww else fw) Ht)
    as [(q & q' & -> & -> & Hq)|[([-> | ->] & ->)|(-> & ->)]]; simpl; auto.
  left; do 2 eexists; (split; [reflexivity|]); (split; [reflexivity|]).
  apply Qmult_le_compat_r; [exact Hq | discriminate].
Qed.

(** With the configuration, the base window and the compaction state
    fixed, more tokens never lower the (clamped) percentage, never switch
    [approaching_limit] off, and never raise [tokens_remaining]. *)
Theorem usage_from_monotone config total total' base cs :
  total <= total' ->
  (exists p p', percentage (usage_from config total base cs) = Fin p
                /\ percentage (usage_from config total' base cs) = Fin p' /\ (p <= p')%Q)
  /\ (approaching_limit (usage_from config total base cs) = true ->
      approaching_limit (usage_from config total' base cs) = true)
  /\ tokens_remaining (usage_from config total' base cs)
     <= tokens_remaining (usage_from config total base cs).
Proof.
  intros Ht. unfold usage_from. destruct (windows config base) as [fw ww]. simpl.
  split; [|split; [|lia]].
  - destruct (raw_percentage_mono config total total' fw ww Ht)
      as [(q & q' & -> & -> & Hq)|[([-> | ->] & ->)|(-> & ->)]]; simpl;
      do 2 eexists; (split; [reflexivity|]); (split; [reflexivity|]);
      try apply Qle_refl.
    apply Q.min_le_compat_r. exact Hq.
  - destruct (raw_percentage_mono config total total' fw ww Ht)
      as [(q & q' & -> & -> & Hq)|[([-> | ->] & ->)|(-> & ->)]]; simpl; auto.
    rewrite !Qle_bool_iff. intros H. eapply Qle_trans; eassumption.
Qed.

Lemma usage_from_monotone_witness :
  (100000 <= 180000)
  /\ (exists p p', percentage (usage_from default_context 100000 200000 Normal) = Fin p
      /\ percentage (usage_from default_context 180000 200000 Normal) = Fin p' /\ (p <= p')%Q)
  /\ (approaching_limit (usage_from default_context 100000 200000 Normal) = true ->
      approaching_limit (usage_from default_context 180000 200000 Normal) = true)
  /\ tokens_remaining (usage_from default_context 180000 200000 Normal)
     <= tokens_remaining (usage_from default_context 100000 200000 Normal).
Proof.
  assert (H : 100000 <= 180000) by lia.
  split; [exact H|]. exact (usage_from_monotone default_context _ _ 200000 Normal H).
Defined.

End UsageMonoFacts.

Module SanitizeMoreFacts.
Import Sanitize.

Lemma csi_tail_sublist s r : csi_tail s = Some r -> r `sublist_of` s.
Proof.
  revert r; induction s as [|c s IH]; simpl; intros r H; [discriminate|].
  apply sublist_cons. destruct (is_csi_param c); [exact (IH r H)|].
  destruct (c =? LETTER_m)%Z; [|discriminate]. inversion H; subst. reflexivity.
Qed.

Lemma strip_ansi_fuel_sublist fuel s : strip_ansi_fuel fuel s `sublist_of` s.
Proof.
  revert s; induction fuel as [|fuel IH]; intros s; [reflexivity|].
  destruct s as [|c r]; simpl; [reflexivity|].
  destruct (c =? ESC)%Z; [|apply sublist_skip, IH].
  destruct r as [|b r']; [apply sublist_skip, IH|].
  destruct (b =? LBRACKET)%Z; [|apply sublist_skip, IH].
  destruct (csi_tail r') as [rest|] eqn:E; [|apply sublist_skip, IH].
  apply sublist_cons, sublist_cons. transitivity rest; [apply IH|].
  apply csi_tail_sublist, E.
Qed.

Lemma filter_keep_id (s : text) :
  Forall (fun c => keep_char c = true) s -> filter (fun c => keep_char c = true) s = s.
Proof.
  induction 1 as [|c s Hc _ IH]; [reflexivity|].
  cbn. case_decide; [f_equal; exact IH | contradiction].
Qed.

(** [sanitize_for_terminal] only deletes characters: its output is a
    subsequence of the input, and text made only of characters the filter
    keeps (no ESC, no other control character) comes back unchanged. *)
Theorem sanitize_for_terminal_deletes_only (s : text) :
  sanitize_for_terminal s `sublist_of` s
  /\ (Forall (fun c => keep_char c = true) s -> sanitize_for_terminal s = s).
Proof.
  split.
  - unfold sanitize_for_terminal. transitivity (strip_ansi s);
      [apply sublist_filter | apply strip_ansi_fuel_sublist].
  - intros H. unfold sanitize_for_terminal, strip_ansi.
    rewrite SanitizeFacts.strip_ansi_fuel_id.
    + apply filter_keep_id, H.
    + intros Hin. rewrite Forall_forall in H. specialize (H _ (proj2 (list_elem_of_In _ _) Hin)). discriminate.
Qed.

Lemma sanitize_for_terminal_deletes_only_witness :
  Forall (fun c => keep_char c = true) [104; 105; 10]%Z
  /\ sanitize_for_terminal [104; 105; 10]%Z = [104; 105; 10]%Z.
Proof.
  assert (H : Forall (fun c => keep_char c = true) [104; 105; 10]%Z)
    by (repeat constructor).
  split; [exact H|]. exact (proj2 (sanitize_for_terminal_deletes_only _) H).
Defined.

End SanitizeMoreFacts.
